(** * An in-memory task service: the store, the model and the handlers

    Shallow embedding of [src/server.go] and of the second version of the
    same program, [src/unnamed/part_000].  Both files declare the same
    package; they differ in two places only: [UpdateTask] and the order
    of [Preprocess] and [Validate] in the POST branch of [todosHandler].
    The declarations that are textually the same in both files are
    embedded once, the two that differ are embedded twice, in
    [Module Server] and in [Module Part000].

    Conventions of the embedding:
    - a Go [string] is a sequence of bytes: [string] of the Standard
      Library, one [ascii] per byte;
    - a Go [int] is an integer of [Z]; the program does no arithmetic on
      it, it only compares it with 0 and uses it as a map key;
    - a Go [error] value is [option error], [None] for [nil];
    - the field [tasks map[int]Task] is a [gmap Z Task]; every store
      method holds the mutex from its first to its last access of the
      map, so that in a sequential run a method is a function from the
      map to a result and a map.  [Module Concurrent] puts the mutex
      back for the interleaving of two calls;
    - the calls of [log.Printf] write to the process log and are left
      out. *)

From Stdlib Require Import ZArith String Ascii List Bool Lia.
From stdpp Require Import base option gmap strings list relations pretty.

Open Scope Z_scope.

(** ** Strings of the Go library *)

(** The byte under an [ascii]. *)
Definition byte (c : ascii) : Z := Z.of_N (N_of_ascii c).

(** [asciiSpace] of package [strings]: the table of the six ASCII
    white-space bytes, tab, line feed, vertical tab, form feed, carriage
    return and space. *)
Definition asciiSpace (c : ascii) : bool :=
  let b := byte c in
  (b =? 9) || (b =? 10) || (b =? 11) || (b =? 12) || (b =? 13) || (b =? 32).

(** The white-space runes of [unicode.IsSpace] that take two bytes in
    UTF-8: U+0085 (C2 85) and U+00A0 (C2 A0). *)
Definition space2 (c0 c1 : ascii) : bool :=
  (byte c0 =? 194) && ((byte c1 =? 133) || (byte c1 =? 160)).

(** The white-space runes of [unicode.IsSpace] that take three bytes:
    U+1680 (E1 9A 80), U+2000 to U+200A (E2 80 80 to E2 80 8A), U+2028
    and U+2029 (E2 80 A8, E2 80 A9), U+202F (E2 80 AF), U+205F
    (E2 81 9F) and U+3000 (E3 80 80). *)
Definition space3 (c0 c1 c2 : ascii) : bool :=
  let b0 := byte c0 in
  let b1 := byte c1 in
  let b2 := byte c2 in
  ((b0 =? 225) && (b1 =? 154) && (b2 =? 128))
  || ((b0 =? 226) && (b1 =? 128)
      && (((128 <=? b2) && (b2 <=? 138)) || (b2 =? 168) || (b2 =? 169)
          || (b2 =? 175)))
  || ((b0 =? 226) && (b1 =? 129) && (b2 =? 159))
  || ((b0 =? 227) && (b1 =? 128) && (b2 =? 128)).

Section Strip.

(** What counts as a white-space rune of two and of three bytes at the
    head of the sequence: the encodings themselves when the bytes are
    read forwards, their mirror images when they are read backwards. *)
Variable enc2 : ascii -> ascii -> bool.
Variable enc3 : ascii -> ascii -> ascii -> bool.

(** Does the sequence start with a white-space rune? *)
Definition headSpace (l : list ascii) : bool :=
  match l with
  | c0 :: l1 =>
      asciiSpace c0
      || match l1 with
         | c1 :: l2 =>
             enc2 c0 c1
             || match l2 with
                | c2 :: _ => enc3 c0 c1 c2
                | [] => false
                end
         | [] => false
         end
  | [] => false
  end.

(** Drop white-space runes from the head until a rune that is not white
    space, an invalid byte or the end is met. *)
Fixpoint strip (l : list ascii) : list ascii :=
  match l with
  | c0 :: l1 =>
      if asciiSpace c0 then strip l1
      else
        match l1 with
        | c1 :: l2 =>
            if enc2 c0 c1 then strip l2
            else
              match l2 with
              | c2 :: l3 => if enc3 c0 c1 c2 then strip l3 else l
              | [] => l
              end
        | [] => l
        end
  | [] => []
  end.

(** Is the sequence made of white-space runes only? *)
Fixpoint allSpace (l : list ascii) : bool :=
  match l with
  | c0 :: l1 =>
      if asciiSpace c0 then allSpace l1
      else
        match l1 with
        | c1 :: l2 =>
            if enc2 c0 c1 then allSpace l2
            else
              match l2 with
              | c2 :: l3 => if enc3 c0 c1 c2 then allSpace l3 else false
              | [] => false
              end
        | [] => false
        end
  | [] => true
  end.

(** The sequences made of white-space runes, one rune after the other. *)
Inductive spacesOf : list ascii -> Prop :=
| spaces_nil : spacesOf []
| spaces_1 c0 l : asciiSpace c0 = true -> spacesOf l -> spacesOf (c0 :: l)
| spaces_2 c0 c1 l :
    enc2 c0 c1 = true -> spacesOf l -> spacesOf (c0 :: c1 :: l)
| spaces_3 c0 c1 c2 l :
    enc3 c0 c1 c2 = true -> spacesOf l -> spacesOf (c0 :: c1 :: c2 :: l).

End Strip.

(** The encodings read backwards, last byte first. *)
Definition space2r (c0 c1 : ascii) : bool := space2 c1 c0.
Definition space3r (c0 c1 c2 : ascii) : bool := space3 c2 c1 c0.

(** A sequence of UTF-8 encoded white-space runes. *)
Definition spaces : list ascii -> Prop := spacesOf space2 space3.

(** Does the sequence start, does it end with a white-space rune? *)
Definition startsWithSpace (l : list ascii) : bool :=
  headSpace space2 space3 l.
Definition endsWithSpace (l : list ascii) : bool :=
  headSpace space2r space3r (rev l).

(** [strings.TrimLeftFunc(s, unicode.IsSpace)] on the bytes of [s]: the
    runes are decoded from the front, and decoding yields a white-space
    rune exactly when the bytes start with its UTF-8 encoding (an invalid
    byte decodes to U+FFFD, which is not white space). *)
Definition trimLeft : list ascii -> list ascii := strip space2 space3.

(** [strings.TrimRightFunc(s, unicode.IsSpace)]: the runes are decoded
    from the back, which yields a white-space rune exactly when the bytes
    end with its encoding. *)
Definition trimRight (l : list ascii) : list ascii :=
  rev (strip space2r space3r (rev l)).

(** [strings.TrimSpace]: "returns a slice of the string s, with all
    leading and trailing white space removed, as defined by Unicode".
    The library trims the front first and the back of what is left. *)
Definition TrimSpace (s : string) : string :=
  string_of_list_ascii (trimRight (trimLeft (list_ascii_of_string s))).

(** A title "consisting only of whitespace": a sequence of UTF-8 encoded
    white-space runes (the empty string included). *)
Definition whitespaceOnly (s : string) : bool :=
  allSpace space2 space3 (list_ascii_of_string s).

(** [s'] is [s] without its leading and trailing white space: [s] is
    white space, then [s'], then white space, and [s'] neither starts nor
    ends with a white-space rune. *)
Definition trimmedOf (s s' : string) : Prop :=
  exists p q : list ascii,
    list_ascii_of_string s = p ++ list_ascii_of_string s' ++ q
    /\ spaces p /\ spaces q
    /\ startsWithSpace (list_ascii_of_string s') = false
    /\ endsWithSpace (list_ascii_of_string s') = false.

(** The digits of [strconv.Atoi], most significant first. *)
Fixpoint digits (l : list ascii) (acc : Z) : option Z :=
  match l with
  | [] => Some acc
  | c :: l' =>
      let d := byte c - 48 in
      if (0 <=? d) && (d <=? 9) then digits l' (10 * acc + d) else None
  end.

(** [strconv.Atoi] on a 64-bit platform: an optional sign, then one
    decimal digit or more and nothing else; a value outside the range of
    [int] is an error. *)
Definition Atoi (s : string) : option Z :=
  let parse (neg : bool) (ds : list ascii) : option Z :=
    match ds with
    | [] => None
    | _ :: _ =>
        match digits ds 0 with
        | Some n =>
            let v := if neg then - n else n in
            if (- 2 ^ 63 <=? v) && (v <? 2 ^ 63) then Some v else None
        | None => None
        end
    end in
  match list_ascii_of_string s with
  | [] => None
  | c :: l =>
      if byte c =? 45 then parse true l
      else if byte c =? 43 then parse false l
      else parse false (c :: l)
  end.

(** ** The task model (the same in both files) *)

(** [type TaskStatus string]. *)
Definition TaskStatus : Type := string.

Definition StatusNotStarted : TaskStatus := "not started".
Definition StatusInProgress : TaskStatus := "in progress".
Definition StatusCompleted : TaskStatus := "completed".

(** [func (s TaskStatus) IsValid() bool]. *)
Definition IsValid (s : TaskStatus) : bool :=
  String.eqb s StatusNotStarted || String.eqb s StatusInProgress
  || String.eqb s StatusCompleted.

(** [type Task struct]. *)
Record Task : Type := mkTask {
  ID : Z;
  Title : string;
  Description : string;
  Status : TaskStatus
}.

#[global] Instance Task_eq_dec : EqDecision Task.
Proof. solve_decision. Defined.

(** [Task{}], the zero value. *)
Definition zeroTask : Task := mkTask 0 "" "" "".

(** The errors the program makes with [fmt.Errorf], one constructor for
    each format string. *)
Inductive error : Type :=
| ErrInvalidID
| ErrEmptyTitle
| ErrInvalidStatus
| ErrAlreadyExists (id : Z)
| ErrNotFound (id : Z).

#[global] Instance error_eq_dec : EqDecision error.
Proof. solve_decision. Defined.

(** [err.Error()], the message. *)
Definition Error (e : error) : string :=
  match e with
  | ErrInvalidID => "id must be a positive integer"
  | ErrEmptyTitle => "title cannot be empty"
  | ErrInvalidStatus => "invalid status"
  | ErrAlreadyExists id => "task with id " +:+ pretty id +:+ " already exists"
  | ErrNotFound id => "task with id " +:+ pretty id +:+ " not found"
  end.

(** [func (t *Task) Preprocess()]: the two assignments, as the record
    after them. *)
Definition Preprocess (t : Task) : Task :=
  let t := mkTask (ID t) (TrimSpace (Title t)) (Description t) (Status t) in
  mkTask (ID t) (Title t) (TrimSpace (Description t)) (Status t).

(** [func (t *Task) Validate() error]. *)
Definition Validate (t : Task) : option error :=
  if ID t <=? 0 then Some ErrInvalidID
  else if String.eqb (Title t) "" then Some ErrEmptyTitle
  else if negb (IsValid (Status t)) then Some ErrInvalidStatus
  else None.

(** ** The store methods that are the same in both files *)

(** [NewTaskStore]. *)
Definition NewTaskStore : gmap Z Task := ∅.

(** [func (ds *TaskStore) CreateTask(task Task) error]. *)
Definition CreateTask (ds : gmap Z Task) (task : Task)
  : option error * gmap Z Task :=
  match ds !! ID task with
  | Some _ => (Some (ErrAlreadyExists (ID task)), ds)
  | None => (None, <[ID task := task]> ds)
  end.

(** [func (ds *TaskStore) GetAllTasks() []Task].  Go ranges over a map in
    an order it does not fix; the list here is in the order of
    [map_to_list]. *)
Definition GetAllTasks (ds : gmap Z Task) : list Task * gmap Z Task :=
  ((map_to_list ds).*2, ds).

(** [func (ds *TaskStore) GetTask(id int) (Task, error)]. *)
Definition GetTask (ds : gmap Z Task) (id : Z)
  : (Task * option error) * gmap Z Task :=
  match ds !! id with
  | None => ((zeroTask, Some (ErrNotFound id)), ds)
  | Some task => ((task, None), ds)
  end.

(** [func (ds *TaskStore) DeleteTask(id int) error]. *)
Definition DeleteTask (ds : gmap Z Task) (id : Z)
  : option error * gmap Z Task :=
  match ds !! id with
  | None => (Some (ErrNotFound id), ds)
  | Some _ => (None, delete id ds)
  end.

(** ** Requests and responses *)

(** What a handler reads of an [*http.Request]: the method, the value of
    the path wildcard [{id}] and the outcome of
    [json.NewDecoder(r.Body).Decode(&t)], [None] when decoding returns an
    error and [Some t] with the decoded record otherwise. *)
Record Request : Type := mkRequest {
  Method : string;
  PathValue_id : string;
  Decode : option Task
}.

(** What a handler writes: nothing, a line of text ([http.Error]), or the
    JSON encoding of a task or of a slice of tasks ([Encode]). *)
Inductive body : Type :=
| NoBody
| Text (msg : string)
| JSONTask (t : Task)
| JSONTasks (l : list Task).

Record Response : Type := mkResponse {
  StatusCode : Z;
  Body : body
}.

Definition MethodGet : string := "GET".
Definition MethodPost : string := "POST".
Definition MethodPut : string := "PUT".
Definition MethodDelete : string := "DELETE".

Definition StatusOK : Z := 200.
Definition StatusCreated : Z := 201.
Definition StatusNoContent : Z := 204.
Definition StatusBadRequest : Z := 400.
Definition StatusNotFound : Z := 404.
Definition StatusMethodNotAllowed : Z := 405.

(** [http.Error(w, msg, code)]. *)
Definition httpError (msg : string) (code : Z) : Response :=
  mkResponse code (Text msg).

(** [func healthzHandler]. *)
Definition healthzHandler (r : Request) : Response :=
  mkResponse StatusOK NoBody.

(** ** [src/server.go] *)

Module Server.

(** [func (ds *TaskStore) UpdateTask(id int, updated Task) (Task, error)],
    lines 105 to 121. *)
Definition UpdateTask (ds : gmap Z Task) (id : Z) (updated : Task)
  : (Task * option error) * gmap Z Task :=
  match ds !! id with
  | None => ((zeroTask, Some (ErrNotFound id)), ds)
  | Some task =>
      let task := mkTask (ID task) (Title updated) (Description task)
                    (Status task) in
      let task := mkTask (ID task) (Title task) (Description updated)
                    (Status task) in
      let task := mkTask (ID task) (Title task) (Description task)
                    (Status updated) in
      ((task, None), <[id := task]> ds)
  end.

(** [func todosHandler(ts *TaskStore) http.HandlerFunc], lines 139 to
    175. *)
Definition todosHandler (ts : gmap Z Task) (r : Request)
  : Response * gmap Z Task :=
  if String.eqb (Method r) MethodPost then
    match Decode r with
    | None => (httpError "invalid JSON" StatusBadRequest, ts)
    | Some t =>
        let t := Preprocess t in
        match Validate t with
        | Some err => (httpError (Error err) StatusBadRequest, ts)
        | None =>
            match CreateTask ts t with
            | (Some err, ts) => (httpError (Error err) StatusBadRequest, ts)
            | (None, ts) => (mkResponse StatusCreated NoBody, ts)
            end
        end
    end
  else if String.eqb (Method r) MethodGet then
    let '(tasks, ts) := GetAllTasks ts in
    (mkResponse StatusOK (JSONTasks tasks), ts)
  else (httpError "method not allowed" StatusMethodNotAllowed, ts).

(** [func todoHandler(ts *TaskStore) http.HandlerFunc], lines 178 to
    245. *)
Definition todoHandler (ts : gmap Z Task) (r : Request)
  : Response * gmap Z Task :=
  let idStr := PathValue_id r in
  if String.eqb idStr "" then (httpError "missing id" StatusBadRequest, ts)
  else
    match Atoi idStr with
    | None => (httpError "invalid id" StatusBadRequest, ts)
    | Some id =>
        if String.eqb (Method r) MethodGet then
          match GetTask ts id with
          | ((_, Some err), ts) => (httpError (Error err) StatusNotFound, ts)
          | ((task, None), ts) => (mkResponse StatusOK (JSONTask task), ts)
          end
        else if String.eqb (Method r) MethodPut then
          match Decode r with
          | None => (httpError "invalid JSON" StatusBadRequest, ts)
          | Some t =>
              let t := Preprocess t in
              match Validate t with
              | Some err => (httpError (Error err) StatusBadRequest, ts)
              | None =>
                  match UpdateTask ts id t with
                  | ((_, Some err), ts) =>
                      (httpError (Error err) StatusNotFound, ts)
                  | ((updated, None), ts) =>
                      (mkResponse StatusOK (JSONTask updated), ts)
                  end
              end
          end
        else if String.eqb (Method r) MethodDelete then
          match DeleteTask ts id with
          | (Some err, ts) => (httpError (Error err) StatusNotFound, ts)
          | (None, ts) => (mkResponse StatusNoContent NoBody, ts)
          end
        else (httpError "method not allowed" StatusMethodNotAllowed, ts)
    end.

(** The stores that the three mutating methods make of the empty one. *)
Inductive reachable : gmap Z Task -> Prop :=
| reach_new : reachable NewTaskStore
| reach_create ds task : reachable ds -> reachable (CreateTask ds task).2
| reach_update ds id updated :
    reachable ds -> reachable (UpdateTask ds id updated).2
| reach_delete ds id : reachable ds -> reachable (DeleteTask ds id).2.

(** The two patterns that [main] and [startTestServer] register for the
    tasks: [/todos] and [/todos/{id}]. *)
Inductive route : Type :=
| Todos
| TodosID.

(** [mux.HandleFunc("/todos", todosHandler(ts))] and
    [mux.HandleFunc("/todos/{id}", todoHandler(ts))]: the patterns name no
    method, so that every method reaches the handler of the pattern. *)
Definition serve (rt : route) (ts : gmap Z Task) (r : Request)
  : Response * gmap Z Task :=
  match rt with
  | Todos => todosHandler ts r
  | TodosID => todoHandler ts r
  end.

(** The methods that the [switch] of the handler has a case for. *)
Definition enumerated (rt : route) : list string :=
  match rt with
  | Todos => [MethodPost; MethodGet]
  | TodosID => [MethodGet; MethodPut; MethodDelete]
  end.

End Server.

(** ** [src/unnamed/part_000] *)

Module Part000.

(** [func (ds *TaskStore) UpdateTask(id int, updated Task) (Task, error)],
    lines 94 to 106: the map entry becomes [updated], the value returned
    is [task], the record read before the assignment. *)
Definition UpdateTask (ds : gmap Z Task) (id : Z) (updated : Task)
  : (Task * option error) * gmap Z Task :=
  match ds !! id with
  | None => ((zeroTask, Some (ErrNotFound id)), ds)
  | Some task => ((task, None), <[id := updated]> ds)
  end.

(** [func todosHandler(ts *TaskStore) http.HandlerFunc], lines 122 to
    158: [Validate] is called on the decoded record, [Preprocess]
    after it. *)
Definition todosHandler (ts : gmap Z Task) (r : Request)
  : Response * gmap Z Task :=
  if String.eqb (Method r) MethodPost then
    match Decode r with
    | None => (httpError "invalid JSON" StatusBadRequest, ts)
    | Some t =>
        match Validate t with
        | Some err => (httpError (Error err) StatusBadRequest, ts)
        | None =>
            let t := Preprocess t in
            match CreateTask ts t with
            | (Some err, ts) => (httpError (Error err) StatusBadRequest, ts)
            | (None, ts) => (mkResponse StatusCreated NoBody, ts)
            end
        end
    end
  else if String.eqb (Method r) MethodGet then
    let '(tasks, ts) := GetAllTasks ts in
    (mkResponse StatusOK (JSONTasks tasks), ts)
  else (httpError "method not allowed" StatusMethodNotAllowed, ts).

(** [func todoHandler(ts *TaskStore) http.HandlerFunc], lines 160 to
    227; the text of [src/server.go], over this file's [UpdateTask]. *)
Definition todoHandler (ts : gmap Z Task) (r : Request)
  : Response * gmap Z Task :=
  let idStr := PathValue_id r in
  if String.eqb idStr "" then (httpError "missing id" StatusBadRequest, ts)
  else
    match Atoi idStr with
    | None => (httpError "invalid id" StatusBadRequest, ts)
    | Some id =>
        if String.eqb (Method r) MethodGet then
          match GetTask ts id with
          | ((_, Some err), ts) => (httpError (Error err) StatusNotFound, ts)
          | ((task, None), ts) => (mkResponse StatusOK (JSONTask task), ts)
          end
        else if String.eqb (Method r) MethodPut then
          match Decode r with
          | None => (httpError "invalid JSON" StatusBadRequest, ts)
          | Some t =>
              let t := Preprocess t in
              match Validate t with
              | Some err => (httpError (Error err) StatusBadRequest, ts)
              | None =>
                  match UpdateTask ts id t with
                  | ((_, Some err), ts) =>
                      (httpError (Error err) StatusNotFound, ts)
                  | ((updated, None), ts) =>
                      (mkResponse StatusOK (JSONTask updated), ts)
                  end
              end
          end
        else if String.eqb (Method r) MethodDelete then
          match DeleteTask ts id with
          | (Some err, ts) => (httpError (Error err) StatusNotFound, ts)
          | (None, ts) => (mkResponse StatusNoContent NoBody, ts)
          end
        else (httpError "method not allowed" StatusMethodNotAllowed, ts)
    end.

(** The stores that the three mutating methods make of the empty one. *)
Inductive reachable : gmap Z Task -> Prop :=
| reach_new : reachable NewTaskStore
| reach_create ds task : reachable ds -> reachable (CreateTask ds task).2
| reach_update ds id updated :
    reachable ds -> reachable (UpdateTask ds id updated).2
| reach_delete ds id : reachable ds -> reachable (DeleteTask ds id).2.

End Part000.

(** The invariant of the store: a record is filed under its own ID. *)
Definition keyed (ds : gmap Z Task) : Prop :=
  forall (k : Z) (task : Task), ds !! k = Some task -> ID task = k.

(** ** Two goroutines in [CreateTask] *)

Module Concurrent.

(** Where a goroutine is in the body of [CreateTask] (lines 67 to 78 of
    [src/server.go]; the body is the same in [src/unnamed/part_000]):
    the statement it runs next, or the value it has returned. *)
Inductive pc : Type :=
| AtLock          (* ds.mutex.Lock() *)
| AtLookup        (* if _, exists := ds.tasks[task.ID]; exists *)
| AtUnlockExists  (* ds.mutex.Unlock(), in the branch of the if *)
| AtReturnErr     (* err := fmt.Errorf(...); log.Printf(...); return err *)
| AtStore         (* ds.tasks[task.ID] = task *)
| AtUnlock        (* ds.mutex.Unlock(), after the assignment *)
| AtReturnNil     (* return nil *)
| Returned (err : option error).

#[global] Instance pc_eq_dec : EqDecision pc.
Proof. solve_decision. Defined.

(** The [TaskStore] with its mutex; only [Lock] and [Unlock] of the
    [sync.RWMutex] are used by [CreateTask], so the mutex is locked or
    not. *)
Record TaskStore : Type := mkStore {
  mutex : bool;
  tasks : gmap Z Task
}.

(** One statement of a goroutine that runs [CreateTask(task)].  [None]:
    the goroutine cannot move; it waits in [Lock] for the mutex, or it
    has returned.  ([Unlock] of a mutex that is not locked is a run-time
    error in Go; no statement follows it.) *)
Definition exec (task : Task) (p : pc) (ds : TaskStore)
  : option (pc * TaskStore) :=
  match p with
  | AtLock =>
      if mutex ds then None else Some (AtLookup, mkStore true (tasks ds))
  | AtLookup =>
      match tasks ds !! ID task with
      | Some _ => Some (AtUnlockExists, ds)
      | None => Some (AtStore, ds)
      end
  | AtUnlockExists =>
      if mutex ds then Some (AtReturnErr, mkStore false (tasks ds)) else None
  | AtReturnErr => Some (Returned (Some (ErrAlreadyExists (ID task))), ds)
  | AtStore =>
      Some (AtUnlock, mkStore (mutex ds) (<[ID task := task]> (tasks ds)))
  | AtUnlock =>
      if mutex ds then Some (AtReturnNil, mkStore false (tasks ds)) else None
  | AtReturnNil => Some (Returned None, ds)
  | Returned _ => None
  end.

(** The two goroutines and the store they share. *)
Record config : Type := mkConfig {
  pc1 : pc;
  pc2 : pc;
  store : TaskStore
}.

(** One step of the program: one statement of either goroutine. *)
Inductive step (t1 t2 : Task) : config -> config -> Prop :=
| step_1 p1 p2 ds p1' ds' :
    exec t1 p1 ds = Some (p1', ds') ->
    step t1 t2 (mkConfig p1 p2 ds) (mkConfig p1' p2 ds')
| step_2 p1 p2 ds p2' ds' :
    exec t2 p2 ds = Some (p2', ds') ->
    step t1 t2 (mkConfig p1 p2 ds) (mkConfig p1 p2' ds').

(** Both calls are about to start on a store whose mutex is free. *)
Definition start (m : gmap Z Task) : config :=
  mkConfig AtLock AtLock (mkStore false m).

(** Both calls have returned, with these values. *)
Definition finished (c : config) (r1 r2 : option error) : Prop :=
  pc1 c = Returned r1 /\ pc2 c = Returned r2.

(** The statements a goroutine has left at most. *)
Definition left (p : pc) : nat :=
  match p with
  | AtLock => 5
  | AtLookup => 4
  | AtStore => 3
  | AtUnlockExists => 2
  | AtUnlock => 2
  | AtReturnErr => 1
  | AtReturnNil => 1
  | Returned _ => 0
  end.

(** The scheduler's choice played out: [true] runs a statement of the
    first goroutine, [false] one of the second; a choice of a goroutine
    that cannot move is skipped. *)
Fixpoint run (t1 t2 : Task) (sched : list bool) (c : config) : config :=
  match sched with
  | [] => c
  | true :: sched =>
      match exec t1 (pc1 c) (store c) with
      | Some (p, ds) => run t1 t2 sched (mkConfig p (pc2 c) ds)
      | None => run t1 t2 sched c
      end
  | false :: sched =>
      match exec t2 (pc2 c) (store c) with
      | Some (p, ds) => run t1 t2 sched (mkConfig (pc1 c) p ds)
      | None => run t1 t2 sched c
      end
  end.

(** Is the goroutine between its [Lock] and its [Unlock]? *)
Definition inside (p : pc) : bool :=
  match p with
  | AtLookup | AtUnlockExists | AtStore | AtUnlock => true
  | _ => false
  end.

(** Has the goroutine done its assignment to the map? *)
Definition stored (p : pc) : bool :=
  match p with
  | AtUnlock | AtReturnNil | Returned None => true
  | _ => false
  end.

(** Has the goroutine found the ID in the map? *)
Definition refused (id : Z) (p : pc) : bool :=
  match p with
  | AtUnlockExists | AtReturnErr => true
  | Returned (Some e) => bool_decide (e = ErrAlreadyExists id)
  | _ => false
  end.

(** Is the value the goroutine returned, if any, one [CreateTask] can
    return for this ID? *)
Definition sound (id : Z) (p : pc) : bool :=
  match p with
  | Returned (Some e) => bool_decide (e = ErrAlreadyExists id)
  | _ => true
  end.

(** What holds of every configuration the two calls can reach from
    [start m], for tasks of the same ID [id] that [m] does not hold. *)
Definition inv (m : gmap Z Task) (t1 t2 : Task) (c : config) : Prop :=
  mutex (store c) = inside (pc1 c) || inside (pc2 c)
  /\ inside (pc1 c) && inside (pc2 c) = false
  /\ tasks (store c)
     = (if stored (pc1 c) then <[ID t1 := t1]> m
        else if stored (pc2 c) then <[ID t2 := t2]> m
        else m)
  /\ (stored (pc1 c) || bool_decide (pc1 c = AtStore))
     && (stored (pc2 c) || bool_decide (pc2 c = AtStore)) = false
  /\ (refused (ID t1) (pc1 c) = true -> stored (pc2 c) = true)
  /\ (refused (ID t2) (pc2 c) = true -> stored (pc1 c) = true)
  /\ sound (ID t1) (pc1 c) = true
  /\ sound (ID t2) (pc2 c) = true.

End Concurrent.

(** ** Stores built through the handlers of [src/server.go] *)

(** What [main] serves: the store starts empty ([NewTaskStore]) and
    changes only in the handlers of the two routes. *)
Inductive served : gmap Z Task -> Prop :=
| served_new : served NewTaskStore
| served_request ts rt r : served ts -> served (Server.serve rt ts r).2.

(** Every record is filed under its ID, passes [Validate] and is what
    [Preprocess] makes of itself. *)
Definition wellFormed (ds : gmap Z Task) : Prop :=
  forall (k : Z) (task : Task),
    ds !! k = Some task ->
    ID task = k /\ Validate task = None /\ Preprocess task = task.

(** ** Two goroutines in [CreateTask], tasks of different IDs *)

(** The mutex is locked exactly when a goroutine is between its [Lock]
    and its [Unlock], and the two are never there together. *)
Definition exclusive (c : Concurrent.config) : Prop :=
  Concurrent.mutex (Concurrent.store c)
  = Concurrent.inside (Concurrent.pc1 c)
    || Concurrent.inside (Concurrent.pc2 c)
  /\ Concurrent.inside (Concurrent.pc1 c)
     && Concurrent.inside (Concurrent.pc2 c) = false.

(** Has the goroutine found its ID in the map? *)
Definition turnedDown (p : Concurrent.pc) : bool :=
  match p with
  | Concurrent.AtUnlockExists | Concurrent.AtReturnErr
  | Concurrent.Returned (Some _) => true
  | _ => false
  end.

(** What holds of every configuration two calls with tasks of different
    IDs can reach from [Concurrent.start m] when [m] holds neither ID. *)
Definition inv_distinct (m : gmap Z Task) (t1 t2 : Task)
    (c : Concurrent.config) : Prop :=
  Concurrent.mutex (Concurrent.store c)
  = Concurrent.inside (Concurrent.pc1 c)
    || Concurrent.inside (Concurrent.pc2 c)
  /\ Concurrent.inside (Concurrent.pc1 c)
     && Concurrent.inside (Concurrent.pc2 c) = false
  /\ Concurrent.tasks (Concurrent.store c)
     = (if Concurrent.stored (Concurrent.pc1 c)
        then <[ID t1 := t1]>
               (if Concurrent.stored (Concurrent.pc2 c)
                then <[ID t2 := t2]> m else m)
        else if Concurrent.stored (Concurrent.pc2 c)
             then <[ID t2 := t2]> m else m)
  /\ turnedDown (Concurrent.pc1 c) = false
  /\ turnedDown (Concurrent.pc2 c) = false.

(** * Properties *)

(** ** Trimming *)

Section StripFacts.

Variable enc2 : ascii -> ascii -> bool.
Variable enc3 : ascii -> ascii -> ascii -> bool.

Local Abbreviation strip' := (strip enc2 enc3).
Local Abbreviation headSpace' := (headSpace enc2 enc3).

(** [strip] moves by one, two or three bytes: facts about it go by
    induction on a bound of the length. *)
Lemma strip_bounded_ind (P : list ascii -> Prop) :
  (forall n : nat, (forall l, (length l < n)%nat -> P l) ->
                   forall l, length l = n -> P l) ->
  forall l, P l.
Proof.
  intros step l.
  remember (length l) as n eqn:Hn.
  revert l Hn.
  induction n as [n IH] using lt_wf_ind.
  intros l Hn. apply (step n); [|done].
  intros l' Hl'. by apply (IH (length l')).
Qed.

Lemma strip_headSpace (l : list ascii) : headSpace' (strip' l) = false.
Proof.
  induction l as [n IH l Hn] using strip_bounded_ind.
  destruct l as [|c0 l1]; [done|].
  simpl. destruct (asciiSpace c0) eqn:E0.
  { apply IH. simpl in *. lia. }
  destruct l1 as [|c1 l2]; [simpl; by rewrite E0|].
  destruct (enc2 c0 c1) eqn:E1.
  { apply IH. simpl in *. lia. }
  destruct l2 as [|c2 l3]; [simpl; by rewrite E0, E1|].
  destruct (enc3 c0 c1 c2) eqn:E2; [|simpl; by rewrite E0, E1, E2].
  apply IH. simpl in *. lia.
Qed.

Lemma strip_fixed (l : list ascii) : headSpace' l = false -> strip' l = l.
Proof.
  destruct l as [|c0 [|c1 [|c2 l3]]]; simpl; [done|..].
  - rewrite orb_false_r. by intros ->.
  - rewrite orb_false_r. intros [-> ->]%orb_false_elim. done.
  - intros [-> [-> ->]%orb_false_elim]%orb_false_elim. done.
Qed.

Lemma strip_split (l : list ascii) :
  exists p, l = p ++ strip' l /\ spacesOf enc2 enc3 p.
Proof.
  induction l as [n IH l Hn] using strip_bounded_ind.
  destruct l as [|c0 l1]; [exists []; split; [done|constructor]|].
  simpl. destruct (asciiSpace c0) eqn:E0.
  { destruct (IH l1) as (p & Hp & Hs); [simpl in *; lia|].
    exists (c0 :: p). simpl. rewrite <- Hp. split; [done|by constructor]. }
  destruct l1 as [|c1 l2]; [exists []; split; [done|constructor]|].
  destruct (enc2 c0 c1) eqn:E1.
  { destruct (IH l2) as (p & Hp & Hs); [simpl in *; lia|].
    exists (c0 :: c1 :: p). simpl. rewrite <- Hp.
    split; [done|by constructor]. }
  destruct l2 as [|c2 l3]; [exists []; split; [done|constructor]|].
  destruct (enc3 c0 c1 c2) eqn:E2; [|exists []; split; [done|constructor]].
  destruct (IH l3) as (p & Hp & Hs); [simpl in *; lia|].
  exists (c0 :: c1 :: c2 :: p). simpl. rewrite <- Hp.
  split; [done|by constructor].
Qed.

Lemma spacesOf_app (l q : list ascii) :
  spacesOf enc2 enc3 l -> spacesOf enc2 enc3 q -> spacesOf enc2 enc3 (l ++ q).
Proof.
  induction 1; intros Hq; simpl;
    [done|apply spaces_1|apply spaces_2|apply spaces_3]; auto.
Qed.

Lemma allSpace_spacesOf (l : list ascii) :
  allSpace enc2 enc3 l = true -> spacesOf enc2 enc3 l.
Proof.
  induction l as [n IH l Hn] using strip_bounded_ind.
  destruct l as [|c0 l1]; [constructor|].
  simpl. destruct (asciiSpace c0) eqn:E0.
  { intros H. constructor; [done|]. apply IH; [simpl in *; lia|done]. }
  destruct l1 as [|c1 l2]; [done|].
  destruct (enc2 c0 c1) eqn:E1.
  { intros H. constructor; [done|]. apply IH; [simpl in *; lia|done]. }
  destruct l2 as [|c2 l3]; [done|].
  destruct (enc3 c0 c1 c2) eqn:E2; [|done].
  intros H. constructor; [done|]. apply IH; [simpl in *; lia|done].
Qed.

(** The runes are told apart by their first bytes: no first byte of a
    longer rune is a rune of its own, and no two first bytes of a rune
    of three are a rune of two. *)
Hypothesis enc2_not_ascii :
  forall c0 c1, enc2 c0 c1 = true -> asciiSpace c0 = false.
Hypothesis enc3_not_ascii :
  forall c0 c1 c2, enc3 c0 c1 c2 = true -> asciiSpace c0 = false.
Hypothesis enc3_not_enc2 :
  forall c0 c1 c2, enc3 c0 c1 c2 = true -> enc2 c0 c1 = false.

Lemma spacesOf_allSpace (l : list ascii) :
  spacesOf enc2 enc3 l -> allSpace enc2 enc3 l = true.
Proof.
  induction 1 as [|c0 l E0 _ IH|c0 c1 l E1 _ IH|c0 c1 c2 l E2 _ IH]; simpl.
  - done.
  - by rewrite E0.
  - by rewrite (enc2_not_ascii _ _ E1), E1.
  - by rewrite (enc3_not_ascii _ _ _ E2), (enc3_not_enc2 _ _ _ E2), E2.
Qed.

Lemma headSpace_app (l q : list ascii) :
  headSpace' l = true -> headSpace' (l ++ q) = true.
Proof.
  destruct l as [|c0 [|c1 [|c2 l3]]]; simpl; [done|..].
  - rewrite orb_false_r. by intros ->.
  - rewrite orb_false_r. intros [->| ->]%orb_true_iff; [done|].
    simpl. apply orb_true_r.
  - done.
Qed.

Lemma allSpace_strip (l : list ascii) :
  allSpace enc2 enc3 l = true -> strip' l = [].
Proof.
  induction l as [n IH l Hn] using strip_bounded_ind.
  destruct l as [|c0 l1]; [done|].
  simpl. destruct (asciiSpace c0).
  { apply IH. simpl in *. lia. }
  destruct l1 as [|c1 l2]; [done|].
  destruct (enc2 c0 c1).
  { apply IH. simpl in *. lia. }
  destruct l2 as [|c2 l3]; [done|].
  destruct (enc3 c0 c1 c2); [|done].
  apply IH. simpl in *. lia.
Qed.

End StripFacts.

Ltac bytes_lia :=
  unfold asciiSpace, space2r, space3r, space2, space3; cbv zeta;
  rewrite ?orb_true_iff, ?andb_true_iff, ?orb_false_iff, ?andb_false_iff,
    ?Z.eqb_eq, ?Z.eqb_neq, ?Z.leb_le, ?Z.leb_gt;
  lia.

Lemma space2_not_ascii (c0 c1 : ascii) :
  space2 c0 c1 = true -> asciiSpace c0 = false.
Proof. bytes_lia. Qed.

Lemma space3_not_ascii (c0 c1 c2 : ascii) :
  space3 c0 c1 c2 = true -> asciiSpace c0 = false.
Proof. bytes_lia. Qed.

Lemma space3_not_space2 (c0 c1 c2 : ascii) :
  space3 c0 c1 c2 = true -> space2 c0 c1 = false.
Proof. bytes_lia. Qed.

(** White space read backwards is white space. *)
Lemma spaces_rev (l : list ascii) :
  spaces l -> spacesOf space2r space3r (rev l).
Proof.
  induction 1 as [|c0 l E0 _ IH|c0 c1 l E1 _ IH|c0 c1 c2 l E2 _ IH]; simpl.
  - constructor.
  - apply spacesOf_app; [done|]. apply spaces_1; [done|constructor].
  - rewrite <- app_assoc. apply spacesOf_app; [done|].
    apply spaces_2; [done|constructor].
  - rewrite <- !app_assoc. apply spacesOf_app; [done|].
    apply spaces_3; [done|constructor].
Qed.

Lemma spaces_unrev (l : list ascii) :
  spacesOf space2r space3r l -> spaces (rev l).
Proof.
  induction 1 as [|c0 l E0 _ IH|c0 c1 l E1 _ IH|c0 c1 c2 l E2 _ IH]; simpl.
  - constructor.
  - apply spacesOf_app; [done|]. apply spaces_1; [done|constructor].
  - rewrite <- app_assoc. apply spacesOf_app; [done|].
    apply spaces_2; [done|constructor].
  - rewrite <- !app_assoc. apply spacesOf_app; [done|].
    apply spaces_3; [done|constructor].
Qed.

(** What [trimRight] cuts off is white space. *)
Lemma trimRight_split (l : list ascii) :
  exists q, l = trimRight l ++ q /\ spaces q.
Proof.
  destruct (strip_split space2r space3r (rev l)) as (p & Hp & Hs).
  exists (rev p). split; [|by apply spaces_unrev].
  apply (f_equal (@rev ascii)) in Hp.
  by rewrite rev_involutive, rev_app_distr in Hp.
Qed.

Lemma trimRight_trimLeft_start (l : list ascii) :
  startsWithSpace (trimRight (trimLeft l)) = false.
Proof.
  unfold startsWithSpace.
  destruct (headSpace space2 space3 (trimRight (trimLeft l))) eqn:E; [|done].
  destruct (trimRight_split (trimLeft l)) as (q & Hq & _).
  apply (headSpace_app _ _ _ q) in E.
  rewrite <- Hq in E. unfold trimLeft in E.
  by rewrite strip_headSpace in E.
Qed.

Lemma trimRight_end (l : list ascii) : endsWithSpace (trimRight l) = false.
Proof.
  unfold endsWithSpace, trimRight. rewrite rev_involutive.
  apply strip_headSpace.
Qed.

Lemma trimLeft_trimRight_fixed (l : list ascii) :
  trimLeft (trimRight (trimLeft l)) = trimRight (trimLeft l).
Proof. apply strip_fixed, trimRight_trimLeft_start. Qed.

Lemma trimRight_idem (l : list ascii) : trimRight (trimRight l) = trimRight l.
Proof.
  unfold trimRight. rewrite rev_involutive.
  f_equal. apply strip_fixed, strip_headSpace.
Qed.

Lemma TrimSpace_idem (s : string) : TrimSpace (TrimSpace s) = TrimSpace s.
Proof.
  unfold TrimSpace. rewrite list_ascii_of_string_of_list_ascii.
  by rewrite trimLeft_trimRight_fixed, trimRight_idem.
Qed.

(** [TrimSpace] removes white space from both ends, and all of it. *)
Lemma TrimSpace_trims (s : string) : trimmedOf s (TrimSpace s).
Proof.
  unfold trimmedOf, TrimSpace. rewrite list_ascii_of_string_of_list_ascii.
  destruct (strip_split space2 space3 (list_ascii_of_string s))
    as (p & Hp & Hsp).
  destruct (trimRight_split (trimLeft (list_ascii_of_string s)))
    as (q & Hq & Hsq).
  exists p, q. split; [|split; [done|split; [done|split]]].
  - rewrite <- Hq. exact Hp.
  - apply trimRight_trimLeft_start.
  - apply trimRight_end.
Qed.

Lemma whitespaceOnly_spaces (s : string) :
  whitespaceOnly s = true <-> spaces (list_ascii_of_string s).
Proof.
  split.
  - apply allSpace_spacesOf.
  - apply spacesOf_allSpace;
      [apply space2_not_ascii|apply space3_not_ascii|apply space3_not_space2].
Qed.

Lemma TrimSpace_whitespaceOnly (s : string) :
  whitespaceOnly s = true -> TrimSpace s = "".
Proof.
  unfold whitespaceOnly, TrimSpace, trimLeft. intros H.
  by rewrite (allSpace_strip _ _ _ H).
Qed.

(** The strings that [TrimSpace] empties are the strings of white space
    only. *)
Lemma TrimSpace_empty_iff (s : string) :
  TrimSpace s = "" <-> whitespaceOnly s = true.
Proof.
  split; [|apply TrimSpace_whitespaceOnly].
  intros H. apply whitespaceOnly_spaces.
  destruct (TrimSpace_trims s) as (p & q & Hs & Hp & Hq & _).
  rewrite H in Hs. simpl in Hs. rewrite Hs. by apply spacesOf_app.
Qed.

Lemma TrimSpace_empty : TrimSpace "" = "".
Proof. reflexivity. Qed.

Example TrimSpace_ascii : TrimSpace "  Read the  book " = "Read the  book".
Proof. reflexivity. Qed.

(** U+00A0 before, U+3000 and a line feed after. *)
Example TrimSpace_unicode :
  TrimSpace (String "194" (String "160" ("Read" +:+
               String "227" (String "128" (String "128" (String "010" ""))))))
  = "Read".
Proof. reflexivity. Qed.

(** A lone byte C2 is not a rune of white space. *)
Example TrimSpace_invalid :
  TrimSpace (String "032" (String "194" "")) = String "194" "".
Proof. reflexivity. Qed.

(** ** The model *)

Lemma Preprocess_fields (t : Task) :
  Preprocess t
  = mkTask (ID t) (TrimSpace (Title t)) (TrimSpace (Description t)) (Status t).
Proof. reflexivity. Qed.

(** C9.  [Preprocess] is idempotent: applied twice it gives the record
    it gives applied once.  It leaves [ID] and [Status] as they are;
    [Title] and [Description] become what [strings.TrimSpace] makes of
    them, the old value without its leading and trailing white space. *)
Theorem Preprocess_idempotent (t : Task) :
  Preprocess (Preprocess t) = Preprocess t
  /\ ID (Preprocess t) = ID t
  /\ Status (Preprocess t) = Status t
  /\ Title (Preprocess t) = TrimSpace (Title t)
  /\ Description (Preprocess t) = TrimSpace (Description t)
  /\ trimmedOf (Title t) (Title (Preprocess t))
  /\ trimmedOf (Description t) (Description (Preprocess t)).
Proof.
  split; [|repeat (split; [done|]); split; apply TrimSpace_trims].
  rewrite !Preprocess_fields. simpl. by rewrite !TrimSpace_idem.
Qed.

(** ** The store *)

Lemma CreateTask_absent (ds : gmap Z Task) (task : Task) :
  ds !! ID task = None -> CreateTask ds task = (None, <[ID task := task]> ds).
Proof. unfold CreateTask. by intros ->. Qed.

Lemma CreateTask_present (ds : gmap Z Task) (task old : Task) :
  ds !! ID task = Some old ->
  CreateTask ds task = (Some (ErrAlreadyExists (ID task)), ds).
Proof. unfold CreateTask. by intros ->. Qed.

Lemma GetTask_present (ds : gmap Z Task) (id : Z) (task : Task) :
  ds !! id = Some task -> GetTask ds id = ((task, None), ds).
Proof. unfold GetTask. by intros ->. Qed.

(** C3.  On a store that does not hold [ID t], [CreateTask t] returns
    [nil] and files [t]; called again it returns the error of the
    duplicate.  On every store and for every task, a call that returns an
    error returns the store it was given. *)
Theorem CreateTask_twice (ds : gmap Z Task) (t : Task)
    (Hfresh : ds !! ID t = None) :
  CreateTask ds t = (None, <[ID t := t]> ds)
  /\ <[ID t := t]> ds !! ID t = Some t
  /\ CreateTask (<[ID t := t]> ds) t
     = (Some (ErrAlreadyExists (ID t)), <[ID t := t]> ds)
  /\ forall (ds' : gmap Z Task) (t' : Task),
       CreateTask ds' t' = (None, <[ID t' := t']> ds')
       \/ CreateTask ds' t' = (Some (ErrAlreadyExists (ID t')), ds').
Proof.
  split; [by apply CreateTask_absent|].
  split; [by rewrite lookup_insert_eq|].
  split.
  - apply (CreateTask_present _ _ t). by rewrite lookup_insert_eq.
  - intros ds' t'. unfold CreateTask. destruct (ds' !! ID t'); auto.
Qed.

Lemma CreateTask_twice_witness :
  let ds : gmap Z Task := ∅ in
  let t := mkTask 1 "Task 1" "Test" StatusNotStarted in
  ds !! ID t = None
  /\ CreateTask ds t = (None, <[ID t := t]> ds)
  /\ <[ID t := t]> ds !! ID t = Some t
  /\ CreateTask (<[ID t := t]> ds) t
     = (Some (ErrAlreadyExists (ID t)), <[ID t := t]> ds)
  /\ forall (ds' : gmap Z Task) (t' : Task),
       CreateTask ds' t' = (None, <[ID t' := t']> ds')
       \/ CreateTask ds' t' = (Some (ErrAlreadyExists (ID t')), ds').
Proof.
  intros ds t. split; [done|].
  apply (CreateTask_twice ds t). done.
Defined.

(** C5.  For an ID the store does not hold, [GetTask], [UpdateTask] (of
    either file, with any replacement) and [DeleteTask] return the error
    "not found" and the store they were given. *)
Theorem absent_id_not_found (ds : gmap Z Task) (id : Z) (newData : Task)
    (Habsent : ds !! id = None) :
  GetTask ds id = ((zeroTask, Some (ErrNotFound id)), ds)
  /\ Server.UpdateTask ds id newData = ((zeroTask, Some (ErrNotFound id)), ds)
  /\ Part000.UpdateTask ds id newData
     = ((zeroTask, Some (ErrNotFound id)), ds)
  /\ DeleteTask ds id = (Some (ErrNotFound id), ds).
Proof.
  unfold GetTask, Server.UpdateTask, Part000.UpdateTask, DeleteTask.
  by rewrite Habsent.
Qed.

Lemma absent_id_not_found_witness :
  let ds : gmap Z Task :=
    {[ 1 := mkTask 1 "Task 1" "Test" StatusNotStarted ]} in
  let newData := mkTask 5 "New" "" StatusCompleted in
  ds !! 5 = None
  /\ GetTask ds 5 = ((zeroTask, Some (ErrNotFound 5)), ds)
  /\ Server.UpdateTask ds 5 newData = ((zeroTask, Some (ErrNotFound 5)), ds)
  /\ Part000.UpdateTask ds 5 newData
     = ((zeroTask, Some (ErrNotFound 5)), ds)
  /\ DeleteTask ds 5 = (Some (ErrNotFound 5), ds).
Proof.
  intros ds newData. split; [done|].
  apply (absent_id_not_found ds 5 newData). done.
Defined.

(** ** [UpdateTask], the version of [src/server.go] *)

Lemma Server_UpdateTask_present (ds : gmap Z Task) (id : Z)
    (newData old : Task) :
  ds !! id = Some old ->
  Server.UpdateTask ds id newData
  = ((mkTask (ID old) (Title newData) (Description newData) (Status newData),
      None),
     <[id := mkTask (ID old) (Title newData) (Description newData)
               (Status newData)]> ds).
Proof. unfold Server.UpdateTask. by intros ->. Qed.

(** The whole of what [src/server.go] does on an update: for an ID the
    store holds, the record keeps its ID and takes the other three
    fields of [newData], every other entry stays, and the value returned
    is the record now stored; for an ID it does not hold, the error. *)
Lemma Server_UpdateTask_correct (ds : gmap Z Task) (id : Z)
    (newData : Task) :
  match ds !! id with
  | Some old =>
      exists new,
        Server.UpdateTask ds id newData = ((new, None), <[id := new]> ds)
        /\ <[id := new]> ds !! id = Some new
        /\ ID new = ID old
        /\ Title new = Title newData
        /\ Description new = Description newData
        /\ Status new = Status newData
        /\ forall k, k <> id -> <[id := new]> ds !! k = ds !! k
  | None =>
      Server.UpdateTask ds id newData
      = ((zeroTask, Some (ErrNotFound id)), ds)
  end.
Proof.
  destruct (ds !! id) as [old|] eqn:E.
  - eexists. rewrite (Server_UpdateTask_present _ _ _ _ E).
    split; [done|]. rewrite lookup_insert_eq.
    repeat (split; [done|]).
    intros k Hk. by rewrite lookup_insert_ne.
  - unfold Server.UpdateTask. by rewrite E.
Qed.

(** ** [UpdateTask], the version of [src/unnamed/part_000] *)

Lemma Part000_UpdateTask_present (ds : gmap Z Task) (id : Z)
    (newData old : Task) :
  ds !! id = Some old ->
  Part000.UpdateTask ds id newData = ((old, None), <[id := newData]> ds).
Proof. unfold Part000.UpdateTask. by intros ->. Qed.

(** C1.  [UpdateTask] of [src/unnamed/part_000] on the store that holds
    task 10 of the test, asked to update 10 with a record whose ID is 11:
    the record now filed under 10 has ID 11, and the value returned is
    the record of before the update, title "Old".  [UpdateTask] of
    [src/server.go] on the same input keeps ID 10 and returns the record
    it stored. *)
Theorem Part000_UpdateTask_stale_and_renumbered :
  let old := mkTask 10 "Old" "" StatusNotStarted in
  let newData := mkTask 11 "New" "" StatusCompleted in
  let ds : gmap Z Task := {[ 10 := old ]} in
  Part000.UpdateTask ds 10 newData = ((old, None), {[ 10 := newData ]})
  /\ ID <$> (Part000.UpdateTask ds 10 newData).2 !! 10 = Some 11
  /\ Title (Part000.UpdateTask ds 10 newData).1.1 = "Old"
  /\ Server.UpdateTask ds 10 newData
     = ((mkTask 10 "New" "" StatusCompleted, None),
        {[ 10 := mkTask 10 "New" "" StatusCompleted ]}).
Proof.
  intros old newData ds.
  assert (Hold : ds !! 10 = Some old) by apply lookup_singleton_eq.
  rewrite (Part000_UpdateTask_present _ _ _ _ Hold).
  rewrite (Server_UpdateTask_present _ _ _ _ Hold).
  unfold ds. rewrite !insert_singleton_eq. simpl.
  by rewrite lookup_singleton_eq.
Qed.

(** ** The two versions of [UpdateTask] side by side *)

(** C4, as it is stated, fails: on the store that holds task 10, an
    update of 10 with a record whose ID is 11 leaves different stores
    behind the two versions and makes them return different tasks, so
    that the two do not agree on every input. *)
Lemma UpdateTask_versions_differ :
  let old := mkTask 10 "Old" "" StatusNotStarted in
  let newData := mkTask 11 "New" "" StatusCompleted in
  let ds : gmap Z Task := {[ 10 := old ]} in
  (Server.UpdateTask ds 10 newData).2 <> (Part000.UpdateTask ds 10 newData).2
  /\ (Server.UpdateTask ds 10 newData).1.1
     <> (Part000.UpdateTask ds 10 newData).1.1
  /\ ~ (forall (ds : gmap Z Task) (id : Z) (newData : Task),
          (Server.UpdateTask ds id newData).1.2
          = (Part000.UpdateTask ds id newData).1.2
          /\ (Server.UpdateTask ds id newData).2
             = (Part000.UpdateTask ds id newData).2
          /\ (Server.UpdateTask ds id newData).1.1
             = (Part000.UpdateTask ds id newData).1.1).
Proof.
  intros old newData ds.
  assert (Hold : ds !! 10 = Some old) by apply lookup_singleton_eq.
  assert (Hret : (Server.UpdateTask ds 10 newData).1.1
                 <> (Part000.UpdateTask ds 10 newData).1.1).
  { rewrite (Part000_UpdateTask_present _ _ _ _ Hold).
    rewrite (Server_UpdateTask_present _ _ _ _ Hold). simpl. discriminate. }
  split; [|split; [done|]].
  - rewrite (Part000_UpdateTask_present _ _ _ _ Hold).
    rewrite (Server_UpdateTask_present _ _ _ _ Hold). simpl. intros H.
    apply (f_equal (fun m : gmap Z Task => m !! 10)) in H.
    rewrite !lookup_insert_eq in H. discriminate H.
  - intros H. apply Hret, H.
Qed.

(** C4, amended.  The two versions fail on the same inputs, those whose
    ID the store does not hold, and then return the same error, the zero
    task and the store as it was.  On the other inputs both return no
    error and both put a record under [id] that has the title, the
    description and the status of [newData]; [src/server.go] gives it
    the ID of the record it replaces, [src/unnamed/part_000] the ID of
    [newData].  No other entry changes in either. *)
Theorem UpdateTask_versions_agree (ds : gmap Z Task) (id : Z)
    (newData : Task) :
  match ds !! id with
  | None =>
      Server.UpdateTask ds id newData
      = ((zeroTask, Some (ErrNotFound id)), ds)
      /\ Part000.UpdateTask ds id newData
         = ((zeroTask, Some (ErrNotFound id)), ds)
  | Some old =>
      (Server.UpdateTask ds id newData).1.2 = None
      /\ (Part000.UpdateTask ds id newData).1.2 = None
      /\ (Server.UpdateTask ds id newData).2
         = <[id := mkTask (ID old) (Title newData) (Description newData)
                     (Status newData)]> ds
      /\ (Part000.UpdateTask ds id newData).2
         = <[id := mkTask (ID newData) (Title newData) (Description newData)
                     (Status newData)]> ds
  end
  /\ dom (Server.UpdateTask ds id newData).2
     = dom (Part000.UpdateTask ds id newData).2
  /\ delete id (Server.UpdateTask ds id newData).2
     = delete id (Part000.UpdateTask ds id newData).2.
Proof.
  destruct (ds !! id) as [old|] eqn:E.
  - rewrite (Server_UpdateTask_present _ _ _ _ E).
    rewrite (Part000_UpdateTask_present _ _ _ _ E). simpl.
    split; [by destruct newData|].
    split; [by rewrite !dom_insert_L|].
    by rewrite !delete_insert_eq.
  - unfold Server.UpdateTask, Part000.UpdateTask. by rewrite E.
Qed.

(** ** A record is filed under its own ID *)

Lemma CreateTask_keyed (ds : gmap Z Task) (task : Task) :
  keyed ds -> keyed (CreateTask ds task).2.
Proof.
  intros Hk k t. unfold CreateTask.
  destruct (ds !! ID task) eqn:E; simpl; [apply Hk|].
  destruct (decide (ID task = k)) as [<-|Hne].
  - rewrite lookup_insert_eq. by intros [= <-].
  - rewrite lookup_insert_ne by done. apply Hk.
Qed.

Lemma DeleteTask_keyed (ds : gmap Z Task) (id : Z) :
  keyed ds -> keyed (DeleteTask ds id).2.
Proof.
  intros Hk k t. unfold DeleteTask.
  destruct (ds !! id) eqn:E; simpl; [|apply Hk].
  intros [_ H]%lookup_delete_Some. by apply Hk.
Qed.

Lemma Server_UpdateTask_keyed (ds : gmap Z Task) (id : Z) (updated : Task) :
  keyed ds -> keyed (Server.UpdateTask ds id updated).2.
Proof.
  intros Hk k t. unfold Server.UpdateTask.
  destruct (ds !! id) as [old|] eqn:E; simpl; [|apply Hk].
  destruct (decide (id = k)) as [<-|Hne].
  - rewrite lookup_insert_eq. intros [= <-]. simpl. by apply Hk.
  - rewrite lookup_insert_ne by done. apply Hk.
Qed.

(** With the methods of [src/server.go], every store made of the empty
    one by [CreateTask], [UpdateTask] and [DeleteTask] files each record
    under its ID. *)
Lemma Server_reachable_keyed (ds : gmap Z Task) :
  Server.reachable ds -> keyed ds.
Proof.
  induction 1 as [|ds task _ IH|ds id updated _ IH|ds id _ IH].
  - intros k t. unfold NewTaskStore. by rewrite lookup_empty.
  - by apply CreateTask_keyed.
  - by apply Server_UpdateTask_keyed.
  - by apply DeleteTask_keyed.
Qed.

(** C8.  With [UpdateTask] of [src/unnamed/part_000], creating task 10 in
    the empty store and updating 10 with a record whose ID is 11 makes a
    store whose key 10 holds a record of ID 11: [UpdateTask] does not
    keep the invariant that [CreateTask] set up. *)
Theorem Part000_reachable_not_keyed :
  let old := mkTask 10 "Old" "" StatusNotStarted in
  let newData := mkTask 11 "New" "" StatusCompleted in
  let ds := (Part000.UpdateTask (CreateTask NewTaskStore old).2 10 newData).2 in
  Part000.reachable ds
  /\ keyed (CreateTask NewTaskStore old).2
  /\ ds !! 10 = Some newData
  /\ ~ keyed ds.
Proof.
  intros old newData ds.
  assert (Hds : ds !! 10 = Some newData).
  { unfold ds, NewTaskStore. rewrite CreateTask_absent by done. simpl.
    erewrite Part000_UpdateTask_present by apply lookup_insert_eq.
    simpl. apply lookup_insert_eq. }
  split; [|split; [|split; [done|]]].
  - apply Part000.reach_update, Part000.reach_create, Part000.reach_new.
  - apply CreateTask_keyed. intros k t. unfold NewTaskStore.
    by rewrite lookup_empty.
  - intros Hk. specialize (Hk 10 newData Hds). discriminate Hk.
Qed.

(** ** The handlers *)

Lemma Atoi_nonempty (s : string) (id : Z) :
  Atoi s = Some id -> String.eqb s "" = false.
Proof. by destruct s. Qed.

Lemma Validate_blank_title (t : Task) :
  Title t = "" ->
  Validate t = Some (if ID t <=? 0 then ErrInvalidID else ErrEmptyTitle).
Proof. unfold Validate. intros ->. by destruct (ID t <=? 0). Qed.

(** In [src/server.go] a POST whose title is empty or white space only
    is answered 400 with the error of the validation, whatever the store
    and the rest of the record, and the store is left as it was. *)
Lemma Server_POST_blank_title_rejected (ts : gmap Z Task) (r : Request)
    (t : Task) :
  Method r = MethodPost ->
  Decode r = Some t ->
  whitespaceOnly (Title t) = true ->
  Server.todosHandler ts r
  = (httpError (Error (if ID t <=? 0 then ErrInvalidID else ErrEmptyTitle))
       StatusBadRequest, ts).
Proof.
  intros Hm Hd Hw. unfold Server.todosHandler.
  rewrite Hm, Hd, String.eqb_refl.
  rewrite (Validate_blank_title (Preprocess t)); [done|].
  simpl. by apply TrimSpace_whitespaceOnly.
Qed.

(** C2.  In [src/unnamed/part_000] the POST branch calls [Validate]
    before [Preprocess]: the record of ID 1 whose title is one space
    passes, is trimmed and is stored with the empty title, and the
    answer is 201.  [src/server.go] answers 400 to the same request and
    stores nothing. *)
Theorem Part000_POST_blank_title_stored :
  let t := mkTask 1 " " "" StatusNotStarted in
  let r := mkRequest MethodPost "" (Some t) in
  whitespaceOnly (Title t) = true
  /\ Part000.todosHandler ∅ r
     = (mkResponse StatusCreated NoBody,
        {[ 1 := mkTask 1 "" "" StatusNotStarted ]})
  /\ Server.todosHandler ∅ r
     = (httpError "title cannot be empty" StatusBadRequest, ∅).
Proof.
  intros t r. split; [done|]. split.
  - unfold Part000.todosHandler. simpl.
    unfold CreateTask. simpl. rewrite lookup_empty.
    by rewrite insert_empty.
  - by rewrite (Server_POST_blank_title_rejected ∅ r t).
Qed.

(** C6.  For a record [t] that is valid once trimmed and whose ID the
    store does not hold: [CreateTask] of the trimmed record returns
    [nil], [GetTask] of its ID then returns the trimmed record; through
    the handlers of [src/server.go], the POST of [t] is answered 201 and
    a GET of its ID after it 200 with the trimmed record. *)
Theorem created_task_is_got (ts : gmap Z Task) (t : Task)
    (post get : Request)
    (Hvalid : Validate (Preprocess t) = None)
    (Hfresh : ts !! ID t = None)
    (Hpost : Method post = MethodPost)
    (Hbody : Decode post = Some t)
    (Hget : Method get = MethodGet)
    (Hid : Atoi (PathValue_id get) = Some (ID t)) :
  CreateTask ts (Preprocess t) = (None, <[ID t := Preprocess t]> ts)
  /\ GetTask (<[ID t := Preprocess t]> ts) (ID t)
     = ((Preprocess t, None), <[ID t := Preprocess t]> ts)
  /\ Server.todosHandler ts post
     = (mkResponse StatusCreated NoBody, <[ID t := Preprocess t]> ts)
  /\ Server.todoHandler (<[ID t := Preprocess t]> ts) get
     = (mkResponse StatusOK (JSONTask (Preprocess t)),
        <[ID t := Preprocess t]> ts).
Proof.
  assert (Hc : CreateTask ts (Preprocess t)
               = (None, <[ID t := Preprocess t]> ts))
    by (by apply (CreateTask_absent ts (Preprocess t))).
  assert (Hg : GetTask (<[ID t := Preprocess t]> ts) (ID t)
               = ((Preprocess t, None), <[ID t := Preprocess t]> ts))
    by apply GetTask_present, lookup_insert_eq.
  split; [done|]. split; [done|]. split.
  - unfold Server.todosHandler.
    by rewrite Hpost, Hbody, String.eqb_refl, Hvalid, Hc.
  - unfold Server.todoHandler.
    by rewrite (Atoi_nonempty _ _ Hid), Hid, Hget, String.eqb_refl, Hg.
Qed.

Lemma created_task_is_got_witness :
  let ts : gmap Z Task := ∅ in
  let t := mkTask 2 " Read " "" StatusNotStarted in
  let post := mkRequest MethodPost "" (Some t) in
  let get := mkRequest MethodGet "2" None in
  (Validate (Preprocess t) = None
   /\ ts !! ID t = None
   /\ Method post = MethodPost
   /\ Decode post = Some t
   /\ Method get = MethodGet
   /\ Atoi (PathValue_id get) = Some (ID t))
  /\ CreateTask ts (Preprocess t) = (None, <[ID t := Preprocess t]> ts)
  /\ GetTask (<[ID t := Preprocess t]> ts) (ID t)
     = ((Preprocess t, None), <[ID t := Preprocess t]> ts)
  /\ Server.todosHandler ts post
     = (mkResponse StatusCreated NoBody, <[ID t := Preprocess t]> ts)
  /\ Server.todoHandler (<[ID t := Preprocess t]> ts) get
     = (mkResponse StatusOK (JSONTask (Preprocess t)),
        <[ID t := Preprocess t]> ts).
Proof.
  intros ts t post get.
  split; [repeat split; reflexivity|].
  apply (created_task_is_got ts t post get); reflexivity.
Defined.

Lemma not_enumerated_Todos (m : string) :
  m ∉ Server.enumerated Server.Todos ->
  String.eqb m MethodPost = false /\ String.eqb m MethodGet = false.
Proof.
  intros H. split; apply String.eqb_neq; intros ->; apply H; simpl;
    set_solver.
Qed.

Lemma not_enumerated_TodosID (m : string) :
  m ∉ Server.enumerated Server.TodosID ->
  String.eqb m MethodGet = false /\ String.eqb m MethodPut = false
  /\ String.eqb m MethodDelete = false.
Proof.
  intros H. repeat split; apply String.eqb_neq; intros ->; apply H; simpl;
    set_solver.
Qed.

(** C7, as it is stated, fails: PATCH is not a method of [/todos/{id}],
    and a PATCH of [/todos/abc] is answered 400, "invalid id", not
    405. *)
Lemma unsupported_method_not_always_405 :
  let r := mkRequest "PATCH" "abc" None in
  ("PATCH" ∉ Server.enumerated Server.TodosID)
  /\ Server.serve Server.TodosID ∅ r
     = (httpError "invalid id" StatusBadRequest, ∅)
  /\ ~ (forall (rt : Server.route) (ts : gmap Z Task) (r : Request),
          Method r ∉ Server.enumerated rt ->
          StatusCode (Server.serve rt ts r).1 = StatusMethodNotAllowed).
Proof.
  intros r.
  assert (Hm : "PATCH" ∉ Server.enumerated Server.TodosID).
  { simpl. unfold MethodGet, MethodPut, MethodDelete.
    rewrite !not_elem_of_cons. repeat split; try discriminate.
    apply not_elem_of_nil. }
  split; [done|]. split; [reflexivity|].
  intros H. specialize (H Server.TodosID ∅ r Hm). discriminate H.
Qed.

(** C7, amended.  A request whose method the handler has no case for is
    answered 405 on [/todos]; on [/todos/{id}] it is answered 405 when
    the id of the path is an integer, and 400 when it is missing or is
    not one, because the handler reads the id before it looks at the
    method. *)
Theorem unsupported_method_status (rt : Server.route) (ts : gmap Z Task)
    (r : Request)
    (Hmethod : Method r ∉ Server.enumerated rt) :
  StatusCode (Server.serve rt ts r).1
  = match rt with
    | Server.Todos => StatusMethodNotAllowed
    | Server.TodosID =>
        match Atoi (PathValue_id r) with
        | Some _ => StatusMethodNotAllowed
        | None => StatusBadRequest
        end
    end.
Proof.
  destruct rt; simpl.
  - destruct (not_enumerated_Todos _ Hmethod) as [Hp Hg].
    unfold Server.todosHandler. by rewrite Hp, Hg.
  - destruct (not_enumerated_TodosID _ Hmethod) as (Hg & Hp & Hd).
    unfold Server.todoHandler.
    destruct (String.eqb (PathValue_id r) "") eqn:E.
    + apply String.eqb_eq in E. by rewrite E.
    + destruct (Atoi (PathValue_id r)); [|done].
      by rewrite Hg, Hp, Hd.
Qed.

Lemma unsupported_method_status_witness :
  let r := mkRequest "PATCH" "12" None in
  (Method r ∉ Server.enumerated Server.TodosID)
  /\ StatusCode (Server.serve Server.TodosID ∅ r).1 = StatusMethodNotAllowed.
Proof.
  intros r.
  assert (Hm : Method r ∉ Server.enumerated Server.TodosID).
  { simpl. unfold MethodGet, MethodPut, MethodDelete.
    rewrite !not_elem_of_cons. repeat split; try discriminate.
    apply not_elem_of_nil. }
  split; [exact Hm|].
  exact (unsupported_method_status Server.TodosID ∅ r Hm).
Defined.

(** ** Two calls of [CreateTask] at once *)

Section TwoCreates.

Import Concurrent.

Variable m : gmap Z Task.
Variables t1 t2 : Task.
Hypothesis same_id : ID t1 = ID t2.
Hypothesis fresh : m !! ID t1 = None.

Lemma inv_start : inv m t1 t2 (start m).
Proof. repeat split; done. Qed.

Lemma exec_inv_1 (p1 p2 p1' : pc) (ds ds' : TaskStore) :
  inv m t1 t2 (mkConfig p1 p2 ds) ->
  exec t1 p1 ds = Some (p1', ds') ->
  inv m t1 t2 (mkConfig p1' p2 ds').
Proof.
  destruct ds as [mu tk]. unfold inv. simpl.
  intros (Hmu & Hex & Htk & Hone & Hr1 & Hr2 & Hs1 & Hs2) Hexec.
  destruct p1 as [| | | | | | |[e1|]]; simpl in Hexec; try discriminate Hexec.
  - (* Lock *)
    destruct mu; [discriminate Hexec|]. injection Hexec as <- <-.
    destruct p2 as [| | | | | | |[e2|]]; simpl in *; naive_solver.
  - (* the lookup *)
    destruct (stored p2) eqn:Hst; simpl in Htk; rewrite Htk in Hexec.
    + rewrite same_id, lookup_insert_eq in Hexec. injection Hexec as <- <-.
      destruct p2 as [| | | | | | |[e2|]]; simpl in *; naive_solver.
    + rewrite fresh in Hexec. injection Hexec as <- <-.
      destruct p2 as [| | | | | | |[e2|]]; simpl in *; naive_solver.
  - (* Unlock, the ID was there *)
    destruct mu; [|discriminate Hexec]. injection Hexec as <- <-.
    destruct p2 as [| | | | | | |[e2|]]; simpl in *; naive_solver.
  - (* return err *)
    injection Hexec as <- <-.
    destruct p2 as [| | | | | | |[e2|]]; simpl in *;
      rewrite ?bool_decide_eq_true; naive_solver.
  - (* the assignment *)
    injection Hexec as <- <-.
    destruct p2 as [| | | | | | |[e2|]]; simpl in *; naive_solver.
  - (* Unlock, after the assignment *)
    destruct mu; [|discriminate Hexec]. injection Hexec as <- <-.
    destruct p2 as [| | | | | | |[e2|]]; simpl in *; naive_solver.
  - (* return nil *)
    injection Hexec as <- <-.
    destruct p2 as [| | | | | | |[e2|]]; simpl in *; naive_solver.
Qed.

Lemma exec_inv_2 (p1 p2 p2' : pc) (ds ds' : TaskStore) :
  inv m t1 t2 (mkConfig p1 p2 ds) ->
  exec t2 p2 ds = Some (p2', ds') ->
  inv m t1 t2 (mkConfig p1 p2' ds').
Proof.
  destruct ds as [mu tk]. unfold inv. simpl.
  intros (Hmu & Hex & Htk & Hone & Hr1 & Hr2 & Hs1 & Hs2) Hexec.
  destruct p2 as [| | | | | | |[e2|]]; simpl in Hexec; try discriminate Hexec.
  - (* Lock *)
    destruct mu; [discriminate Hexec|]. injection Hexec as <- <-.
    destruct p1 as [| | | | | | |[e1|]]; simpl in *; naive_solver.
  - (* the lookup *)
    destruct (stored p1) eqn:Hst; simpl in Htk; rewrite Htk in Hexec.
    + rewrite <- same_id, lookup_insert_eq in Hexec.
      injection Hexec as <- <-.
      destruct p1 as [| | | | | | |[e1|]]; simpl in *; naive_solver.
    + rewrite <- same_id, fresh in Hexec. injection Hexec as <- <-.
      destruct p1 as [| | | | | | |[e1|]]; simpl in *; naive_solver.
  - (* Unlock, the ID was there *)
    destruct mu; [|discriminate Hexec]. injection Hexec as <- <-.
    destruct p1 as [| | | | | | |[e1|]]; simpl in *; naive_solver.
  - (* return err *)
    injection Hexec as <- <-.
    destruct p1 as [| | | | | | |[e1|]]; simpl in *;
      rewrite ?bool_decide_eq_true; naive_solver.
  - (* the assignment *)
    injection Hexec as <- <-.
    destruct p1 as [| | | | | | |[e1|]]; simpl in *; naive_solver.
  - (* Unlock, after the assignment *)
    destruct mu; [|discriminate Hexec]. injection Hexec as <- <-.
    destruct p1 as [| | | | | | |[e1|]]; simpl in *; naive_solver.
  - (* return nil *)
    injection Hexec as <- <-.
    destruct p1 as [| | | | | | |[e1|]]; simpl in *; naive_solver.
Qed.

Lemma step_inv (c c' : config) :
  inv m t1 t2 c -> step t1 t2 c c' -> inv m t1 t2 c'.
Proof.
  intros Hinv Hstep. destruct Hstep as [p1 p2 ds p1' ds' H|p1 p2 ds p2' ds' H].
  - by apply (exec_inv_1 p1 p2 p1' ds ds').
  - by apply (exec_inv_2 p1 p2 p2' ds ds').
Qed.

Lemma reachable_inv (c : config) :
  rtc (step t1 t2) (start m) c -> inv m t1 t2 c.
Proof.
  intros Hrtc. apply rtc_nsteps in Hrtc as [n Hn].
  revert c Hn. induction n as [|n IH]; intros c Hn.
  - inversion Hn; subst. apply inv_start.
  - apply nsteps_inv_r in Hn as (c0 & Hn & Hstep).
    apply (step_inv c0); [by apply IH|done].
Qed.

(** What the two calls have returned when both have: one [nil], the
    other the error of the duplicate, and the map holds the task of the
    call that returned [nil]. *)
Lemma inv_finished (c : config) (r1 r2 : option error) :
  inv m t1 t2 c ->
  finished c r1 r2 ->
  (r1 = None /\ r2 = Some (ErrAlreadyExists (ID t2))
   /\ tasks (store c) = <[ID t1 := t1]> m)
  \/ (r1 = Some (ErrAlreadyExists (ID t1)) /\ r2 = None
      /\ tasks (store c) = <[ID t2 := t2]> m).
Proof.
  destruct c as [p1 p2 [mu tk]]. unfold inv, finished. simpl.
  intros (Hmu & Hex & Htk & Hone & Hr1 & Hr2 & Hs1 & Hs2) [-> ->].
  destruct r1 as [e1|], r2 as [e2|]; simpl in *;
    rewrite ?bool_decide_eq_true in *; naive_solver.
Qed.

(** A goroutine that holds the mutex can always move, and so can one
    that has not returned when nobody holds it: the two calls cannot
    block each other. *)
Lemma inv_progress (c : config) :
  inv m t1 t2 c ->
  (exists c', step t1 t2 c c') \/ (exists r1 r2, finished c r1 r2).
Proof.
  destruct c as [p1 p2 [mu tk]]. unfold inv, finished. simpl.
  intros (Hmu & Hex & Htk & Hone & Hr1 & Hr2 & Hs1 & Hs2).
  assert (H1 : forall p' ds', exec t1 p1 (mkStore mu tk) = Some (p', ds') ->
    exists c', step t1 t2 (mkConfig p1 p2 (mkStore mu tk)) c').
  { intros p' ds' H. eexists. by apply step_1. }
  assert (H2 : forall p' ds', exec t2 p2 (mkStore mu tk) = Some (p', ds') ->
    exists c', step t1 t2 (mkConfig p1 p2 (mkStore mu tk)) c').
  { intros p' ds' H. eexists. by apply step_2. }
  destruct p1 as [| | | | | | |r1], p2 as [| | | | | | |r2];
    simpl in *; try discriminate; subst mu.
  all: first
    [ right; by eauto
    | left; by eapply H1
    | left; by eapply H2
    | left; destruct (tk !! ID t1); by eapply H1
    | left; destruct (tk !! ID t2); by eapply H2 ].
Qed.

(** Every statement that runs uses up one of the at most ten the two
    calls have: a run has no more than ten steps. *)
Lemma step_left (c c' : config) :
  step t1 t2 c c' ->
  (left (pc1 c') + left (pc2 c') < left (pc1 c) + left (pc2 c))%nat.
Proof.
  intros [p1 p2 ds p1' ds' H|p1 p2 ds p2' ds' H]; simpl.
  - destruct p1; simpl in H; repeat case_match; simplify_eq; simpl; lia.
  - destruct p2; simpl in H; repeat case_match; simplify_eq; simpl; lia.
Qed.

(** What a schedule makes of a configuration is reached by steps. *)
Lemma run_steps (sched : list bool) (c : config) :
  rtc (step t1 t2) c (run t1 t2 sched c).
Proof.
  revert c. induction sched as [|[|] sched IH]; intros c; simpl.
  - apply rtc_refl.
  - destruct (exec t1 (pc1 c) (store c)) as [[p ds]|] eqn:E; [|apply IH].
    eapply rtc_l; [|apply IH]. destruct c as [p1 p2 ds0]. by apply step_1.
  - destruct (exec t2 (pc2 c) (store c)) as [[p ds]|] eqn:E; [|apply IH].
    eapply rtc_l; [|apply IH]. destruct c as [p1 p2 ds0]. by apply step_2.
Qed.

(** The first call runs to its end before the second starts. *)
Lemma run_first_wins :
  run t1 t2 [true; true; true; true; true; false; false; false; false]
    (start m)
  = mkConfig (Returned None) (Returned (Some (ErrAlreadyExists (ID t2))))
      (mkStore false (<[ID t1 := t1]> m)).
Proof.
  simpl. rewrite fresh. simpl.
  rewrite <- same_id, lookup_insert_eq. simpl. by rewrite same_id.
Qed.

(** The second call runs to its end before the first starts. *)
Lemma run_second_wins :
  run t1 t2 [false; false; false; false; false; true; true; true; true]
    (start m)
  = mkConfig (Returned (Some (ErrAlreadyExists (ID t1)))) (Returned None)
      (mkStore false (<[ID t2 := t2]> m)).
Proof.
  simpl. rewrite <- same_id, fresh. simpl.
  rewrite same_id, lookup_insert_eq. simpl. by rewrite same_id.
Qed.

End TwoCreates.

(** C10.  Two goroutines call [CreateTask] with tasks of the same ID on a
    store that does not hold it, and run their statements in any order
    the mutex allows.  Whatever they reach, either one of them can move
    or both have returned; every step uses up one of finitely many
    statements; when both have returned, one has returned [nil] and the
    other the error of the duplicate, and the map holds the task of the
    one that returned [nil].  Either call can be that one. *)
Theorem concurrent_creates_one_succeeds (m : gmap Z Task) (t1 t2 : Task)
    (Hsame : ID t1 = ID t2)
    (Hfresh : m !! ID t1 = None) :
  (forall c : Concurrent.config,
     rtc (Concurrent.step t1 t2) (Concurrent.start m) c ->
     ((exists c', Concurrent.step t1 t2 c c')
      \/ (exists r1 r2, Concurrent.finished c r1 r2))
     /\ (forall r1 r2,
          Concurrent.finished c r1 r2 ->
          (r1 = None /\ r2 = Some (ErrAlreadyExists (ID t2))
           /\ Concurrent.tasks (Concurrent.store c) = <[ID t1 := t1]> m)
          \/ (r1 = Some (ErrAlreadyExists (ID t1)) /\ r2 = None
              /\ Concurrent.tasks (Concurrent.store c)
                 = <[ID t2 := t2]> m)))
  /\ (forall c c' : Concurrent.config,
        Concurrent.step t1 t2 c c' ->
        (Concurrent.left (Concurrent.pc1 c')
         + Concurrent.left (Concurrent.pc2 c')
         < Concurrent.left (Concurrent.pc1 c)
           + Concurrent.left (Concurrent.pc2 c))%nat)
  /\ (exists c,
        rtc (Concurrent.step t1 t2) (Concurrent.start m) c
        /\ Concurrent.finished c None (Some (ErrAlreadyExists (ID t2))))
  /\ (exists c,
        rtc (Concurrent.step t1 t2) (Concurrent.start m) c
        /\ Concurrent.finished c (Some (ErrAlreadyExists (ID t1))) None).
Proof.
  split; [|split; [|split]].
  - intros c Hc. pose proof (reachable_inv m t1 t2 Hsame Hfresh c Hc) as Hinv.
    split.
    + by apply (inv_progress m).
    + intros r1 r2. by apply inv_finished.
  - apply step_left.
  - eexists. split; [apply run_steps|].
    by rewrite (run_first_wins m t1 t2 Hsame Hfresh).
  - eexists. split; [apply run_steps|].
    by rewrite (run_second_wins m t1 t2 Hsame Hfresh).
Qed.

Lemma concurrent_creates_one_succeeds_witness :
  let m : gmap Z Task := ∅ in
  let t1 := mkTask 1 "Task 1" "Test" StatusNotStarted in
  let t2 := mkTask 1 "Task 1, again" "" StatusInProgress in
  (ID t1 = ID t2 /\ m !! ID t1 = None)
  /\ (forall c : Concurrent.config,
        rtc (Concurrent.step t1 t2) (Concurrent.start m) c ->
        ((exists c', Concurrent.step t1 t2 c c')
         \/ (exists r1 r2, Concurrent.finished c r1 r2))
        /\ (forall r1 r2,
             Concurrent.finished c r1 r2 ->
             (r1 = None /\ r2 = Some (ErrAlreadyExists (ID t2))
              /\ Concurrent.tasks (Concurrent.store c) = <[ID t1 := t1]> m)
             \/ (r1 = Some (ErrAlreadyExists (ID t1)) /\ r2 = None
                 /\ Concurrent.tasks (Concurrent.store c)
                    = <[ID t2 := t2]> m)))
  /\ (forall c c' : Concurrent.config,
        Concurrent.step t1 t2 c c' ->
        (Concurrent.left (Concurrent.pc1 c')
         + Concurrent.left (Concurrent.pc2 c')
         < Concurrent.left (Concurrent.pc1 c)
           + Concurrent.left (Concurrent.pc2 c))%nat)
  /\ (exists c,
        rtc (Concurrent.step t1 t2) (Concurrent.start m) c
        /\ Concurrent.finished c None (Some (ErrAlreadyExists (ID t2))))
  /\ (exists c,
        rtc (Concurrent.step t1 t2) (Concurrent.start m) c
        /\ Concurrent.finished c (Some (ErrAlreadyExists (ID t1))) None).
Proof.
  intros m t1 t2.
  split; [split; reflexivity|].
  apply (concurrent_creates_one_succeeds m t1 t2); reflexivity.
Defined.

(** ** The scenarios of [src/server_test.go] *)

(** [TestCreateTask]: 201, then 400 for the same record. *)
Example scenario_create_twice :
  let r := mkRequest MethodPost ""
             (Some (mkTask 1 "Task 1" "Test" StatusNotStarted)) in
  let '(resp1, ts1) := Server.todosHandler NewTaskStore r in
  let '(resp2, ts2) := Server.todosHandler ts1 r in
  StatusCode resp1 = 201 /\ StatusCode resp2 = 400
  /\ Body resp2 = Text "task with id 1 already exists" /\ ts2 = ts1.
Proof. vm_compute. done. Qed.

(** [TestUpdateTask] on [src/server.go]: the answer to the PUT carries
    the new title and status. *)
Example scenario_update :
  let post := mkRequest MethodPost ""
                (Some (mkTask 10 "Old" "" StatusNotStarted)) in
  let put := mkRequest MethodPut "10"
               (Some (mkTask 10 "New" "" StatusCompleted)) in
  let '(_, ts1) := Server.todosHandler NewTaskStore post in
  (Server.todoHandler ts1 put).1
  = mkResponse 200 (JSONTask (mkTask 10 "New" "" StatusCompleted)).
Proof. vm_compute. done. Qed.

(** [TestUpdateTask] on [src/unnamed/part_000]: the answer to the PUT
    carries the old title and status, which the test reports as an
    error. *)
Example scenario_update_part_000 :
  let post := mkRequest MethodPost ""
                (Some (mkTask 10 "Old" "" StatusNotStarted)) in
  let put := mkRequest MethodPut "10"
               (Some (mkTask 10 "New" "" StatusCompleted)) in
  let '(_, ts1) := Part000.todosHandler NewTaskStore post in
  (Part000.todoHandler ts1 put).1
  = mkResponse 200 (JSONTask (mkTask 10 "Old" "" StatusNotStarted)).
Proof. vm_compute. done. Qed.

(** On [src/unnamed/part_000], a PUT of [/todos/10] whose body has ID 11
    passes the validation and files a record of ID 11 under key 10. *)
Example scenario_renumber_part_000 :
  let post := mkRequest MethodPost ""
                (Some (mkTask 10 "Old" "" StatusNotStarted)) in
  let put := mkRequest MethodPut "10"
               (Some (mkTask 11 "New" "" StatusCompleted)) in
  let '(_, ts1) := Part000.todosHandler NewTaskStore post in
  (Part000.todoHandler ts1 put).2 !! 10
  = Some (mkTask 11 "New" "" StatusCompleted).
Proof. vm_compute. done. Qed.

(** [TestDeleteTask]: 204, then 404. *)
Example scenario_delete :
  let post := mkRequest MethodPost ""
                (Some (mkTask 5 "Del" "" StatusNotStarted)) in
  let '(_, ts1) := Server.todosHandler NewTaskStore post in
  let '(resp2, ts2) := Server.todoHandler ts1 (mkRequest MethodDelete "5" None) in
  let '(resp3, _) := Server.todoHandler ts2 (mkRequest MethodGet "5" None) in
  StatusCode resp2 = 204 /\ StatusCode resp3 = 404.
Proof. vm_compute. done. Qed.

(** * Further properties of the store *)

(** [GetAllTasks] (lines 81 to 89 of [src/server.go]) returns the stored
    records and nothing else, as many as the map has keys, whatever the
    order, and leaves the map as it is. *)
Theorem GetAllTasks_complete (ds : gmap Z Task) :
  (forall task : Task,
     task ∈ (GetAllTasks ds).1 <-> exists k : Z, ds !! k = Some task)
  /\ length (GetAllTasks ds).1 = size ds
  /\ (GetAllTasks ds).2 = ds.
Proof.
  unfold GetAllTasks. simpl. split; [|split; [|done]].
  - intros task. rewrite list_elem_of_fmap. split.
    + intros ([k t] & -> & Hin). exists k. by apply elem_of_map_to_list.
    + intros [k Hk]. exists (k, task). split; [done|].
      by apply elem_of_map_to_list.
  - by rewrite length_fmap, length_map_to_list.
Qed.





(** [CreateTask] never replaces a record: whatever it is given, every
    record of the store is still there after it. *)
Theorem CreateTask_keeps_records (ds : gmap Z Task) (task old : Task)
    (k : Z) (Hold : ds !! k = Some old) :
  (CreateTask ds task).2 !! k = Some old.
Proof.
  unfold CreateTask. destruct (ds !! ID task) eqn:E; simpl; [done|].
  rewrite lookup_insert_ne; [done|]. intros Heq. congruence.
Qed.

Lemma CreateTask_keeps_records_witness :
  let old := mkTask 1 "Task 1" "Test" StatusNotStarted in
  let ds : gmap Z Task := {[ 1 := old ]} in
  let task := mkTask 1 "Other" "" StatusCompleted in
  ds !! 1 = Some old /\ (CreateTask ds task).2 !! 1 = Some old.
Proof.
  intros old ds task. split; [reflexivity|].
  apply (CreateTask_keeps_records ds task old 1). reflexivity.
Defined.

(** [DeleteTask] undoes [CreateTask]: on a store that does not hold the
    ID, creating a task and deleting its ID gives the store back. *)
Theorem CreateTask_DeleteTask (ds : gmap Z Task) (task : Task)
    (Hfresh : ds !! ID task = None) :
  DeleteTask (CreateTask ds task).2 (ID task) = (None, ds).
Proof.
  rewrite CreateTask_absent by done. simpl. unfold DeleteTask.
  rewrite lookup_insert_eq. by rewrite delete_insert_id.
Qed.

Lemma CreateTask_DeleteTask_witness :
  let ds : gmap Z Task := ∅ in
  let task := mkTask 5 "Del" "" StatusNotStarted in
  ds !! ID task = None
  /\ DeleteTask (CreateTask ds task).2 (ID task) = (None, ds).
Proof.
  intros ds task. split; [reflexivity|].
  apply (CreateTask_DeleteTask ds task). reflexivity.
Defined.

(** After [DeleteTask] of an ID the store holds, [GetTask] and a second
    [DeleteTask] of the ID return "not found", and every other ID has
    the record it had. *)
Theorem DeleteTask_then_absent (ds : gmap Z Task) (id : Z) (old : Task)
    (Hold : ds !! id = Some old) :
  DeleteTask ds id = (None, delete id ds)
  /\ GetTask (delete id ds) id
     = ((zeroTask, Some (ErrNotFound id)), delete id ds)
  /\ DeleteTask (delete id ds) id = (Some (ErrNotFound id), delete id ds)
  /\ forall k : Z, k = id \/ delete id ds !! k = ds !! k.
Proof.
  unfold DeleteTask, GetTask. rewrite Hold, lookup_delete_eq.
  repeat (split; [done|]).
  intros k. destruct (decide (k = id)) as [->|Hne]; [by left|right].
  by rewrite lookup_delete_ne.
Qed.

Lemma DeleteTask_then_absent_witness :
  let old := mkTask 5 "Del" "" StatusNotStarted in
  let ds : gmap Z Task := {[ 5 := old ]} in
  ds !! 5 = Some old
  /\ DeleteTask ds 5 = (None, delete 5 ds)
  /\ GetTask (delete 5 ds) 5
     = ((zeroTask, Some (ErrNotFound 5)), delete 5 ds)
  /\ DeleteTask (delete 5 ds) 5 = (Some (ErrNotFound 5), delete 5 ds)
  /\ forall k : Z, k = 5 \/ delete 5 ds !! k = ds !! k.
Proof.
  intros old ds. split; [reflexivity|].
  apply (DeleteTask_then_absent ds 5 old). reflexivity.
Defined.

(** With [UpdateTask] of [src/server.go], a [GetTask] of the same ID
    right after the update returns what the update returned, the record
    or the error, and a second update with the same data changes
    nothing and returns the same. *)
Theorem Server_UpdateTask_then_GetTask (ds : gmap Z Task) (id : Z)
    (updated : Task) :
  GetTask (Server.UpdateTask ds id updated).2 id
  = Server.UpdateTask ds id updated
  /\ Server.UpdateTask (Server.UpdateTask ds id updated).2 id updated
     = Server.UpdateTask ds id updated.
Proof.
  destruct (ds !! id) as [old|] eqn:E.
  - rewrite (Server_UpdateTask_present _ _ _ _ E). simpl. split.
    + apply GetTask_present, lookup_insert_eq.
    + erewrite Server_UpdateTask_present by apply lookup_insert_eq.
      simpl. by rewrite insert_insert_eq.
  - unfold Server.UpdateTask, GetTask. rewrite E. simpl. by rewrite E.
Qed.

(** How many records the store has after each method: one more after a
    [CreateTask] of an ID it did not hold, one less after a [DeleteTask]
    of an ID it held, as many as before in every other case and after
    [UpdateTask] of either file. *)
Theorem store_size (ds : gmap Z Task) (id : Z) (task : Task) :
  size (CreateTask ds task).2
  = match ds !! ID task with
    | Some _ => size ds
    | None => S (size ds)
    end
  /\ size (DeleteTask ds id).2
     = match ds !! id with
       | Some _ => pred (size ds)
       | None => size ds
       end
  /\ size (Server.UpdateTask ds id task).2 = size ds
  /\ size (Part000.UpdateTask ds id task).2 = size ds.
Proof.
  unfold CreateTask, DeleteTask, Server.UpdateTask, Part000.UpdateTask.
  split; [|split; [|split]].
  - destruct (ds !! ID task) eqn:E; simpl; [done|].
    by apply map_size_insert_None.
  - destruct (ds !! id) eqn:E; simpl; [|done].
    by apply map_size_delete_Some.
  - destruct (ds !! id) eqn:E; simpl; [|done].
    by apply map_size_insert_Some.
  - destruct (ds !! id) eqn:E; simpl; [|done].
    by apply map_size_insert_Some.
Qed.

(** * Further properties of the model *)

Lemma eqb_TrimSpace_empty (s : string) :
  String.eqb (TrimSpace s) "" = whitespaceOnly s.
Proof.
  destruct (whitespaceOnly s) eqn:E.
  - apply String.eqb_eq. by apply TrimSpace_empty_iff.
  - apply String.eqb_neq. intros H%TrimSpace_empty_iff. congruence.
Qed.

Lemma Preprocess_twice (t : Task) : Preprocess (Preprocess t) = Preprocess t.
Proof. rewrite !Preprocess_fields. simpl. by rewrite !TrimSpace_idem. Qed.

Lemma Validate_None_inv (t : Task) :
  Validate t = None ->
  (ID t <=? 0) = false /\ String.eqb (Title t) "" = false
  /\ IsValid (Status t) = true.
Proof.
  unfold Validate.
  destruct (ID t <=? 0); [done|].
  destruct (String.eqb (Title t) ""); [done|].
  destruct (IsValid (Status t)); done.
Qed.

(** What [Validate] answers when it is called after [Preprocess], as the
    handlers of [src/server.go] call it: the error of the ID for an ID
    that is not positive, else the error of the title for a title that
    is empty or white space only, else the error of the status for a
    status that is none of the three, else [nil]. *)
Theorem Validate_after_Preprocess (t : Task) :
  Validate (Preprocess t)
  = if ID t <=? 0 then Some ErrInvalidID
    else if whitespaceOnly (Title t) then Some ErrEmptyTitle
    else if bool_decide (Status t ∈ [StatusNotStarted; StatusInProgress;
                                     StatusCompleted])
         then None
         else Some ErrInvalidStatus.
Proof.
  unfold Validate. rewrite Preprocess_fields. simpl.
  rewrite eqb_TrimSpace_empty.
  destruct (ID t <=? 0); [done|].
  destruct (whitespaceOnly (Title t)); [done|].
  unfold IsValid. case_bool_decide as H.
  - rewrite !elem_of_cons in H.
    destruct H as [->|[->|[->|H]]]; [done..|by apply elem_of_nil in H].
  - rewrite !not_elem_of_cons in H. destruct H as (H1 & H2 & H3 & _).
    apply String.eqb_neq in H1, H2, H3. by rewrite H1, H2, H3.
Qed.

(** Trimming can make a record fail [Validate], never pass it: a record
    that is valid once trimmed was valid before. *)
Theorem Validate_before_Preprocess (t : Task)
    (Hvalid : Validate (Preprocess t) = None) :
  Validate t = None.
Proof.
  apply Validate_None_inv in Hvalid as (Hid & Ht & Hs).
  rewrite Preprocess_fields in Hid, Ht, Hs. simpl in *.
  rewrite eqb_TrimSpace_empty in Ht.
  unfold Validate. rewrite Hid, Hs. simpl.
  destruct (String.eqb (Title t) "") eqn:E; [|done].
  apply String.eqb_eq in E. rewrite E in Ht. discriminate Ht.
Qed.

Lemma Validate_before_Preprocess_witness :
  let t := mkTask 2 " Read " "" StatusNotStarted in
  Validate (Preprocess t) = None /\ Validate t = None.
Proof.
  intros t. split; [reflexivity|].
  apply (Validate_before_Preprocess t). reflexivity.
Defined.

(** * Further properties of the handlers *)

(** The two orders of [Preprocess] and [Validate] in the POST branch
    give the same answer and the same store on every request, except
    for a decoded title that is white space only and not empty: there
    [src/unnamed/part_000] goes on where [src/server.go] stops. *)
Theorem todosHandler_orders_agree (ts : gmap Z Task) (r : Request)
    (Htitle : forall t : Task,
       Decode r = Some t -> whitespaceOnly (Title t) = true -> Title t = "") :
  Part000.todosHandler ts r = Server.todosHandler ts r.
Proof.
  unfold Part000.todosHandler, Server.todosHandler.
  destruct (String.eqb (Method r) MethodPost); [|done].
  destruct (Decode r) as [t|] eqn:Hd; [|done].
  specialize (Htitle t eq_refl).
  assert (Hv : Validate t = Validate (Preprocess t)).
  { unfold Validate. rewrite Preprocess_fields. simpl.
    rewrite eqb_TrimSpace_empty.
    destruct (whitespaceOnly (Title t)) eqn:Hw.
    - by rewrite (Htitle eq_refl).
    - destruct (String.eqb (Title t) "") eqn:E; [|done].
      apply String.eqb_eq in E. rewrite E in Hw. discriminate Hw. }
  by rewrite Hv.
Qed.

Lemma todosHandler_orders_agree_witness :
  let ts : gmap Z Task := ∅ in
  let r := mkRequest MethodPost ""
             (Some (mkTask 2 " Read " " " StatusNotStarted)) in
  (forall t : Task,
     Decode r = Some t -> whitespaceOnly (Title t) = true -> Title t = "")
  /\ Part000.todosHandler ts r = Server.todosHandler ts r.
Proof.
  intros ts r.
  assert (H : forall t : Task,
    Decode r = Some t -> whitespaceOnly (Title t) = true -> Title t = "").
  { intros t [= <-]. simpl. discriminate. }
  split; [exact H|].
  exact (todosHandler_orders_agree ts r H).
Defined.

(** An answer of 400 or more comes with the store untouched, on both
    routes of [src/server.go] and for every request; so does the answer
    to every GET. *)
Theorem serve_error_keeps_store (rt : Server.route) (ts : gmap Z Task)
    (r : Request)
    (Hfail : Method r = MethodGet
             \/ 400 <= StatusCode (Server.serve rt ts r).1) :
  (Server.serve rt ts r).2 = ts.
Proof.
  destruct rt; simpl in *.
  - unfold Server.todosHandler in *.
    destruct Hfail as [-> | Hfail]; [done|].
    destruct (String.eqb (Method r) MethodPost); [|by case_match].
    destruct (Decode r) as [t|]; [|done].
    destruct (Validate (Preprocess t)); [done|].
    unfold CreateTask in *.
    destruct (ts !! ID (Preprocess t)); [done|].
    simpl in Hfail. unfold StatusCreated in Hfail. lia.
  - unfold Server.todoHandler in *.
    destruct (String.eqb (PathValue_id r) ""); [done|].
    destruct (Atoi (PathValue_id r)) as [id|]; [|done].
    destruct Hfail as [-> | Hfail].
    { simpl. unfold GetTask. by destruct (ts !! id). }
    destruct (String.eqb (Method r) MethodGet).
    { unfold GetTask. by destruct (ts !! id). }
    destruct (String.eqb (Method r) MethodPut).
    { destruct (Decode r) as [t|]; [|done].
      destruct (Validate (Preprocess t)); [done|].
      unfold Server.UpdateTask in *.
      destruct (ts !! id); [|done].
      simpl in Hfail. unfold StatusOK in Hfail. lia. }
    destruct (String.eqb (Method r) MethodDelete); [|done].
    unfold DeleteTask in *.
    destruct (ts !! id); [|done].
    simpl in Hfail. unfold StatusNoContent in Hfail. lia.
Qed.

Lemma serve_error_keeps_store_witness :
  let ts : gmap Z Task := {[ 1 := mkTask 1 "Task 1" "Test" StatusNotStarted ]} in
  let r := mkRequest MethodPost ""
             (Some (mkTask 1 "Task 1" "Test" StatusNotStarted)) in
  (Method r = MethodGet
   \/ 400 <= StatusCode (Server.serve Server.Todos ts r).1)
  /\ (Server.serve Server.Todos ts r).2 = ts.
Proof.
  intros ts r.
  assert (H : Method r = MethodGet
              \/ 400 <= StatusCode (Server.serve Server.Todos ts r).1).
  { right. vm_compute. discriminate. }
  split; [exact H|].
  exact (serve_error_keeps_store Server.Todos ts r H).
Defined.

(** The status codes of [src/server.go]: [/todos] answers 200, 201, 400
    or 405 and [/todos/{id}] answers 200, 204, 400, 404 or 405, to every
    request and on every store. *)
Theorem serve_status_codes (rt : Server.route) (ts : gmap Z Task)
    (r : Request) :
  StatusCode (Server.serve rt ts r).1
  ∈ match rt with
    | Server.Todos =>
        [StatusOK; StatusCreated; StatusBadRequest; StatusMethodNotAllowed]
    | Server.TodosID =>
        [StatusOK; StatusNoContent; StatusBadRequest; StatusNotFound;
         StatusMethodNotAllowed]
    end.
Proof.
  destruct rt; simpl.
  - unfold Server.todosHandler, CreateTask.
    repeat case_match; simplify_eq; simpl; set_solver.
  - unfold Server.todoHandler, GetTask, Server.UpdateTask, DeleteTask.
    repeat case_match; simplify_eq; simpl; set_solver.
Qed.

Lemma wellFormed_insert (ds : gmap Z Task) (task : Task) :
  wellFormed ds ->
  Validate task = None -> Preprocess task = task ->
  wellFormed (<[ID task := task]> ds).
Proof.
  intros Hwf Hv Hp k t.
  destruct (decide (ID task = k)) as [<-|Hne].
  - rewrite lookup_insert_eq. by intros [= <-].
  - rewrite lookup_insert_ne by done. apply Hwf.
Qed.

Lemma wellFormed_delete (ds : gmap Z Task) (id : Z) :
  wellFormed ds -> wellFormed (delete id ds).
Proof. intros Hwf k t [_ H]%lookup_delete_Some. by apply Hwf. Qed.

(** The record that the PUT branch of [src/server.go] files is valid and
    trimmed when the one it replaces and the trimmed body are. *)
Lemma wellFormed_update (old t : Task) :
  Validate old = None -> Validate (Preprocess t) = None ->
  let new := mkTask (ID old) (Title (Preprocess t))
               (Description (Preprocess t)) (Status (Preprocess t)) in
  Validate new = None /\ Preprocess new = new.
Proof.
  intros (Hid & _ & _)%Validate_None_inv (_ & Ht & Hs)%Validate_None_inv.
  split.
  - unfold Validate. simpl in *. by rewrite Hid, Ht, Hs.
  - rewrite !Preprocess_fields. simpl. by rewrite !TrimSpace_idem.
Qed.

Lemma serve_wellFormed (rt : Server.route) (ts : gmap Z Task) (r : Request) :
  wellFormed ts -> wellFormed (Server.serve rt ts r).2.
Proof.
  intros Hwf. destruct rt; simpl.
  - unfold Server.todosHandler.
    destruct (String.eqb (Method r) MethodPost); [|by case_match].
    destruct (Decode r) as [t|]; [|done].
    destruct (Validate (Preprocess t)) eqn:Hv; [done|].
    unfold CreateTask.
    destruct (ts !! ID (Preprocess t)); [done|]. simpl.
    apply (wellFormed_insert ts (Preprocess t));
      [done..|apply Preprocess_twice].
  - unfold Server.todoHandler.
    destruct (String.eqb (PathValue_id r) ""); [done|].
    destruct (Atoi (PathValue_id r)) as [id|]; [|done].
    destruct (String.eqb (Method r) MethodGet).
    { unfold GetTask. by destruct (ts !! id). }
    destruct (String.eqb (Method r) MethodPut).
    { destruct (Decode r) as [t|]; [|done].
      destruct (Validate (Preprocess t)) eqn:Hv; [done|].
      unfold Server.UpdateTask.
      destruct (ts !! id) as [old|] eqn:Hold; [|done]. simpl.
      destruct (Hwf id old Hold) as (Hk & Hvo & _).
      destruct (wellFormed_update old t Hvo Hv) as [Hvn Hpn].
      rewrite <- Hk at 1.
      apply (wellFormed_insert ts
               (mkTask (ID old) (Title (Preprocess t))
                  (Description (Preprocess t)) (Status (Preprocess t))));
        done. }
    destruct (String.eqb (Method r) MethodDelete); [|done].
    unfold DeleteTask. destruct (ts !! id); [|done]. simpl.
    by apply wellFormed_delete.
Qed.

(** Whatever requests [src/server.go] has served since [main] made the
    store, every record of the store is filed under its own ID, passes
    [Validate] (positive ID, title not empty, one of the three statuses)
    and has a title and a description without white space at either
    end. *)
Theorem served_wellFormed (ds : gmap Z Task) (Hserved : served ds) :
  wellFormed ds.
Proof.
  induction Hserved as [|ts rt r _ IH].
  - intros k t. unfold NewTaskStore. by rewrite lookup_empty.
  - by apply serve_wellFormed.
Qed.

Lemma served_wellFormed_witness :
  let r := mkRequest MethodPost ""
             (Some (mkTask 2 " Read " "" StatusNotStarted)) in
  let ds := (Server.serve Server.Todos NewTaskStore r).2 in
  served ds /\ wellFormed ds.
Proof.
  intros r ds.
  assert (H : served ds) by apply served_request, served_new.
  split; [exact H|].
  exact (served_wellFormed ds H).
Defined.

(** A PUT of [src/server.go] that is answered 200 and a GET of the same
    id after it: both carry the same record, which has the ID that was
    stored and the trimmed title, the trimmed description and the status
    of the body. *)
Theorem PUT_then_GET (ts : gmap Z Task) (put get : Request) (id : Z)
    (t old : Task)
    (Hput : Method put = MethodPut)
    (Hpid : Atoi (PathValue_id put) = Some id)
    (Hbody : Decode put = Some t)
    (Hvalid : Validate (Preprocess t) = None)
    (Hold : ts !! id = Some old)
    (Hget : Method get = MethodGet)
    (Hgid : Atoi (PathValue_id get) = Some id) :
  let new := mkTask (ID old) (TrimSpace (Title t))
               (TrimSpace (Description t)) (Status t) in
  Server.todoHandler ts put
  = (mkResponse StatusOK (JSONTask new), <[id := new]> ts)
  /\ Server.todoHandler (<[id := new]> ts) get
     = (mkResponse StatusOK (JSONTask new), <[id := new]> ts).
Proof.
  intros new. split.
  - unfold Server.todoHandler.
    rewrite (Atoi_nonempty _ _ Hpid), Hpid, Hput, Hbody, Hvalid. simpl.
    by rewrite (Server_UpdateTask_present _ _ _ _ Hold).
  - unfold Server.todoHandler.
    rewrite (Atoi_nonempty _ _ Hgid), Hgid, Hget. simpl.
    by rewrite (GetTask_present _ _ new) by apply lookup_insert_eq.
Qed.

Lemma PUT_then_GET_witness :
  let old := mkTask 10 "Old" "" StatusNotStarted in
  let t := mkTask 11 " New " "" StatusCompleted in
  let ts : gmap Z Task := {[ 10 := old ]} in
  let put := mkRequest MethodPut "10" (Some t) in
  let get := mkRequest MethodGet "+10" None in
  let new := mkTask 10 "New" "" StatusCompleted in
  (Method put = MethodPut /\ Atoi (PathValue_id put) = Some 10
   /\ Decode put = Some t /\ Validate (Preprocess t) = None
   /\ ts !! 10 = Some old /\ Method get = MethodGet
   /\ Atoi (PathValue_id get) = Some 10)
  /\ Server.todoHandler ts put
     = (mkResponse StatusOK (JSONTask new), <[10 := new]> ts)
  /\ Server.todoHandler (<[10 := new]> ts) get
     = (mkResponse StatusOK (JSONTask new), <[10 := new]> ts).
Proof.
  intros old t ts put get new.
  split; [repeat split; reflexivity|].
  apply (PUT_then_GET ts put get 10 t old); reflexivity.
Defined.

(** A DELETE of [src/server.go] of an id the store holds is answered
    204; a GET and a second DELETE of the id after it are answered 404
    with the message of the missing id. *)
Theorem DELETE_then_GET (ts : gmap Z Task) (del get : Request) (id : Z)
    (old : Task)
    (Hdel : Method del = MethodDelete)
    (Hdid : Atoi (PathValue_id del) = Some id)
    (Hold : ts !! id = Some old)
    (Hget : Method get = MethodGet)
    (Hgid : Atoi (PathValue_id get) = Some id) :
  Server.todoHandler ts del
  = (mkResponse StatusNoContent NoBody, delete id ts)
  /\ Server.todoHandler (delete id ts) get
     = (httpError (Error (ErrNotFound id)) StatusNotFound, delete id ts)
  /\ Server.todoHandler (delete id ts) del
     = (httpError (Error (ErrNotFound id)) StatusNotFound, delete id ts).
Proof.
  unfold Server.todoHandler.
  rewrite (Atoi_nonempty _ _ Hdid), Hdid, Hdel.
  rewrite (Atoi_nonempty _ _ Hgid), Hgid, Hget. simpl.
  unfold DeleteTask, GetTask. by rewrite Hold, lookup_delete_eq.
Qed.

Lemma DELETE_then_GET_witness :
  let old := mkTask 5 "Del" "" StatusNotStarted in
  let ts : gmap Z Task := {[ 5 := old ]} in
  let del := mkRequest MethodDelete "5" None in
  let get := mkRequest MethodGet "5" None in
  (Method del = MethodDelete /\ Atoi (PathValue_id del) = Some 5
   /\ ts !! 5 = Some old /\ Method get = MethodGet
   /\ Atoi (PathValue_id get) = Some 5)
  /\ Server.todoHandler ts del
     = (mkResponse StatusNoContent NoBody, delete 5 ts)
  /\ Server.todoHandler (delete 5 ts) get
     = (httpError (Error (ErrNotFound 5)) StatusNotFound, delete 5 ts)
  /\ Server.todoHandler (delete 5 ts) del
     = (httpError (Error (ErrNotFound 5)) StatusNotFound, delete 5 ts).
Proof.
  intros old ts del get.
  split; [repeat split; reflexivity|].
  apply (DELETE_then_GET ts del get 5 old); reflexivity.
Defined.

(** A POST of [src/server.go] that is answered 201 cannot be repeated:
    the same request on the store it left is answered 400 with the
    message of the duplicate, and the store stays. *)
Theorem POST_twice (ts : gmap Z Task) (r : Request)
    (Hcreated : StatusCode (Server.todosHandler ts r).1 = StatusCreated) :
  exists t : Task,
    Decode r = Some t
    /\ (Server.todosHandler ts r).2 = <[ID t := Preprocess t]> ts
    /\ Server.todosHandler (Server.todosHandler ts r).2 r
       = (httpError (Error (ErrAlreadyExists (ID t))) StatusBadRequest,
          (Server.todosHandler ts r).2).
Proof.
  unfold Server.todosHandler in *.
  destruct (String.eqb (Method r) MethodPost) eqn:Hm.
  - destruct (Decode r) as [t|]; [|discriminate Hcreated].
    destruct (Validate (Preprocess t)) eqn:Hv; [discriminate Hcreated|].
    unfold CreateTask in *.
    destruct (ts !! ID (Preprocess t)) eqn:E; [discriminate Hcreated|].
    exists t. simpl.
    split; [done|]. split; [done|].
    by rewrite lookup_insert_eq.
  - destruct (String.eqb (Method r) MethodGet); discriminate Hcreated.
Qed.

Lemma POST_twice_witness :
  let ts : gmap Z Task := ∅ in
  let r := mkRequest MethodPost ""
             (Some (mkTask 1 "Task 1" "Test" StatusNotStarted)) in
  StatusCode (Server.todosHandler ts r).1 = StatusCreated
  /\ exists t : Task,
       Decode r = Some t
       /\ (Server.todosHandler ts r).2 = <[ID t := Preprocess t]> ts
       /\ Server.todosHandler (Server.todosHandler ts r).2 r
          = (httpError (Error (ErrAlreadyExists (ID t))) StatusBadRequest,
             (Server.todosHandler ts r).2).
Proof.
  intros ts r. split; [reflexivity|].
  apply (POST_twice ts r). reflexivity.
Defined.

(** * Further properties of two calls of [CreateTask] at once *)

Section AnyTwoCreates.

Import Concurrent.

Variables t1 t2 : Task.

Lemma exec_exclusive_1 (p1 p2 p1' : pc) (ds ds' : TaskStore) :
  exclusive (mkConfig p1 p2 ds) ->
  exec t1 p1 ds = Some (p1', ds') ->
  exclusive (mkConfig p1' p2 ds').
Proof.
  destruct ds as [mu tk]. unfold exclusive. simpl. intros [Hmu Hex] Hexec.
  destruct p1 as [| | | | | | |[e1|]]; simpl in Hexec;
    repeat case_match; simplify_eq; simpl in *;
    destruct (inside p2); simpl in *; done.
Qed.

Lemma exec_exclusive_2 (p1 p2 p2' : pc) (ds ds' : TaskStore) :
  exclusive (mkConfig p1 p2 ds) ->
  exec t2 p2 ds = Some (p2', ds') ->
  exclusive (mkConfig p1 p2' ds').
Proof.
  destruct ds as [mu tk]. unfold exclusive. simpl. intros [Hmu Hex] Hexec.
  destruct p2 as [| | | | | | |[e2|]]; simpl in Hexec;
    repeat case_match; simplify_eq; simpl in *;
    destruct (inside p1); simpl in *; done.
Qed.

Lemma reachable_exclusive (m : gmap Z Task) (c : config) :
  rtc (step t1 t2) (start m) c -> exclusive c.
Proof.
  intros Hrtc. apply rtc_nsteps in Hrtc as [n Hn].
  revert c Hn. induction n as [|n IH]; intros c Hn.
  - inversion Hn; subst. by split.
  - apply nsteps_inv_r in Hn as (c0 & Hn & Hstep).
    specialize (IH c0 Hn).
    destruct Hstep as [p1 p2 ds p1' ds' H|p1 p2 ds p2' ds' H].
    + by apply (exec_exclusive_1 p1 p2 p1' ds ds').
    + by apply (exec_exclusive_2 p1 p2 p2' ds ds').
Qed.

Lemma exclusive_progress (c : config) :
  exclusive c ->
  (exists c', step t1 t2 c c') \/ (exists r1 r2, finished c r1 r2).
Proof.
  destruct c as [p1 p2 [mu tk]]. unfold exclusive, finished. simpl.
  intros [Hmu Hex].
  assert (H1 : forall p' ds', exec t1 p1 (mkStore mu tk) = Some (p', ds') ->
    exists c', step t1 t2 (mkConfig p1 p2 (mkStore mu tk)) c').
  { intros p' ds' H. eexists. by apply step_1. }
  assert (H2 : forall p' ds', exec t2 p2 (mkStore mu tk) = Some (p', ds') ->
    exists c', step t1 t2 (mkConfig p1 p2 (mkStore mu tk)) c').
  { intros p' ds' H. eexists. by apply step_2. }
  destruct p1 as [| | | | | | |r1], p2 as [| | | | | | |r2];
    simpl in *; try discriminate; subst mu.
  all: first
    [ right; by eauto
    | left; by eapply H1
    | left; by eapply H2
    | left; destruct (tk !! ID t1); by eapply H1
    | left; destruct (tk !! ID t2); by eapply H2 ].
Qed.

End AnyTwoCreates.

(** Two goroutines in [CreateTask], whatever their tasks and whatever
    the store holds: they are never both between [Lock] and [Unlock],
    the mutex is locked exactly when one of them is, and as long as one
    of them has not returned one of them can run its next statement. *)
Theorem CreateTask_mutual_exclusion (m : gmap Z Task) (t1 t2 : Task)
    (c : Concurrent.config)
    (Hreach : rtc (Concurrent.step t1 t2) (Concurrent.start m) c) :
  Concurrent.inside (Concurrent.pc1 c)
  && Concurrent.inside (Concurrent.pc2 c) = false
  /\ Concurrent.mutex (Concurrent.store c)
     = Concurrent.inside (Concurrent.pc1 c)
       || Concurrent.inside (Concurrent.pc2 c)
  /\ ((exists c', Concurrent.step t1 t2 c c')
      \/ (exists r1 r2, Concurrent.finished c r1 r2)).
Proof.
  pose proof (reachable_exclusive t1 t2 m c Hreach) as Hex.
  split; [apply Hex|]. split; [apply Hex|].
  by apply exclusive_progress.
Qed.

Lemma CreateTask_mutual_exclusion_witness :
  let m : gmap Z Task := ∅ in
  let t1 := mkTask 1 "Task 1" "Test" StatusNotStarted in
  let t2 := mkTask 2 "Read" "" StatusNotStarted in
  let c := Concurrent.run t1 t2 [true; false; true] (Concurrent.start m) in
  rtc (Concurrent.step t1 t2) (Concurrent.start m) c
  /\ Concurrent.inside (Concurrent.pc1 c)
     && Concurrent.inside (Concurrent.pc2 c) = false
  /\ Concurrent.mutex (Concurrent.store c)
     = Concurrent.inside (Concurrent.pc1 c)
       || Concurrent.inside (Concurrent.pc2 c)
  /\ ((exists c', Concurrent.step t1 t2 c c')
      \/ (exists r1 r2, Concurrent.finished c r1 r2)).
Proof.
  intros m t1 t2 c.
  assert (H : rtc (Concurrent.step t1 t2) (Concurrent.start m) c)
    by apply run_steps.
  split; [exact H|].
  exact (CreateTask_mutual_exclusion m t1 t2 c H).
Defined.

Section TwoCreatesDistinct.

Import Concurrent.

Variable m : gmap Z Task.
Variables t1 t2 : Task.
Hypothesis distinct : ID t1 <> ID t2.
Hypothesis fresh1 : m !! ID t1 = None.
Hypothesis fresh2 : m !! ID t2 = None.

Lemma exec_inv_distinct_1 (p1 p2 p1' : pc) (ds ds' : TaskStore) :
  inv_distinct m t1 t2 (mkConfig p1 p2 ds) ->
  exec t1 p1 ds = Some (p1', ds') ->
  inv_distinct m t1 t2 (mkConfig p1' p2 ds').
Proof.
  destruct ds as [mu tk]. unfold inv_distinct. simpl.
  intros (Hmu & Hex & Htk & Hd1 & Hd2) Hexec.
  destruct p1 as [| | | | | | |[e1|]]; simpl in Hexec; try discriminate Hexec.
  - destruct mu; [discriminate Hexec|]. injection Hexec as <- <-.
    destruct p2 as [| | | | | | |[e2|]]; simpl in *; naive_solver.
  - simpl in Htk. rewrite Htk in Hexec.
    assert (Hl : (if stored p2 then <[ID t2:=t2]> m else m) !! ID t1 = None).
    { destruct (stored p2); [|done]. by rewrite lookup_insert_ne. }
    rewrite Hl in Hexec. injection Hexec as <- <-.
    destruct p2 as [| | | | | | |[e2|]]; simpl in *; naive_solver.
  - discriminate Hd1.
  - discriminate Hd1.
  - injection Hexec as <- <-. simpl in *. rewrite Htk.
    destruct p2 as [| | | | | | |[e2|]]; simpl in *; naive_solver.
  - destruct mu; [|discriminate Hexec]. injection Hexec as <- <-.
    destruct p2 as [| | | | | | |[e2|]]; simpl in *; naive_solver.
  - injection Hexec as <- <-.
    destruct p2 as [| | | | | | |[e2|]]; simpl in *; naive_solver.
Qed.

Lemma exec_inv_distinct_2 (p1 p2 p2' : pc) (ds ds' : TaskStore) :
  inv_distinct m t1 t2 (mkConfig p1 p2 ds) ->
  exec t2 p2 ds = Some (p2', ds') ->
  inv_distinct m t1 t2 (mkConfig p1 p2' ds').
Proof.
  destruct ds as [mu tk]. unfold inv_distinct. simpl.
  intros (Hmu & Hex & Htk & Hd1 & Hd2) Hexec.
  destruct p2 as [| | | | | | |[e2|]]; simpl in Hexec; try discriminate Hexec.
  - destruct mu; [discriminate Hexec|]. injection Hexec as <- <-.
    destruct p1 as [| | | | | | |[e1|]]; simpl in *; naive_solver.
  - simpl in Htk. rewrite Htk in Hexec.
    assert (Hl : (if stored p1 then <[ID t1:=t1]> m else m) !! ID t2 = None).
    { destruct (stored p1); [|done]. by rewrite lookup_insert_ne. }
    rewrite Hl in Hexec. injection Hexec as <- <-.
    destruct p1 as [| | | | | | |[e1|]]; simpl in *; naive_solver.
  - discriminate Hd2.
  - discriminate Hd2.
  - injection Hexec as <- <-. simpl in *. rewrite Htk.
    destruct p1 as [| | | | | | |[e1|]]; simpl in *;
      rewrite ?(insert_insert_ne m (ID t2) (ID t1)) by done; naive_solver.
  - destruct mu; [|discriminate Hexec]. injection Hexec as <- <-.
    destruct p1 as [| | | | | | |[e1|]]; simpl in *; naive_solver.
  - injection Hexec as <- <-.
    destruct p1 as [| | | | | | |[e1|]]; simpl in *; naive_solver.
Qed.

Lemma reachable_inv_distinct (c : config) :
  rtc (step t1 t2) (start m) c -> inv_distinct m t1 t2 c.
Proof.
  intros Hrtc. apply rtc_nsteps in Hrtc as [n Hn].
  revert c Hn. induction n as [|n IH]; intros c Hn.
  - inversion Hn; subst. by repeat split.
  - apply nsteps_inv_r in Hn as (c0 & Hn & Hstep).
    specialize (IH c0 Hn).
    destruct Hstep as [p1 p2 ds p1' ds' H|p1 p2 ds p2' ds' H].
    + by apply (exec_inv_distinct_1 p1 p2 p1' ds ds').
    + by apply (exec_inv_distinct_2 p1 p2 p2' ds ds').
Qed.

Lemma inv_distinct_finished (c : config) (r1 r2 : option error) :
  inv_distinct m t1 t2 c ->
  finished c r1 r2 ->
  r1 = None /\ r2 = None
  /\ tasks (store c) = <[ID t1 := t1]> (<[ID t2 := t2]> m).
Proof.
  destruct c as [p1 p2 [mu tk]]. unfold inv_distinct, finished. simpl.
  intros (Hmu & Hex & Htk & Hd1 & Hd2) [-> ->].
  destruct r1 as [e1|], r2 as [e2|]; simpl in *; done.
Qed.

End TwoCreatesDistinct.

(** Two goroutines call [CreateTask] with tasks of different IDs on a
    store that holds neither.  Whatever they reach, neither has found its
    ID taken; and when both have returned, both have returned [nil] and
    the map holds both tasks, beside what it held. *)
Theorem concurrent_creates_distinct_both_succeed (m : gmap Z Task)
    (t1 t2 : Task) (c : Concurrent.config) (r1 r2 : option error)
    (Hdistinct : ID t1 <> ID t2)
    (Hfresh1 : m !! ID t1 = None)
    (Hfresh2 : m !! ID t2 = None)
    (Hreach : rtc (Concurrent.step t1 t2) (Concurrent.start m) c)
    (Hdone : Concurrent.finished c r1 r2) :
  r1 = None /\ r2 = None
  /\ Concurrent.tasks (Concurrent.store c)
     = <[ID t1 := t1]> (<[ID t2 := t2]> m)
  /\ Concurrent.mutex (Concurrent.store c) = false.
Proof.
  pose proof (reachable_inv_distinct m t1 t2 Hdistinct Hfresh1 Hfresh2 c
                Hreach) as Hinv.
  destruct (inv_distinct_finished m t1 t2 c r1 r2 Hinv Hdone)
    as (-> & -> & Htk).
  repeat (split; [done|]).
  destruct Hinv as (Hmu & _). destruct Hdone as [H1 H2].
  by rewrite Hmu, H1, H2.
Qed.

Lemma concurrent_creates_distinct_both_succeed_witness :
  let m : gmap Z Task := ∅ in
  let t1 := mkTask 1 "Task 1" "Test" StatusNotStarted in
  let t2 := mkTask 2 "Read" "" StatusNotStarted in
  let c := Concurrent.run t1 t2
             [true; false; true; true; true; false; true; false; false;
              false; false]
             (Concurrent.start m) in
  (ID t1 <> ID t2 /\ m !! ID t1 = None /\ m !! ID t2 = None
   /\ rtc (Concurrent.step t1 t2) (Concurrent.start m) c
   /\ Concurrent.finished c None None)
  /\ @None error = None /\ @None error = None
  /\ Concurrent.tasks (Concurrent.store c)
     = <[ID t1 := t1]> (<[ID t2 := t2]> m)
  /\ Concurrent.mutex (Concurrent.store c) = false.
Proof.
  intros m t1 t2 c.
  assert (Hne : ID t1 <> ID t2) by discriminate.
  assert (Hr : rtc (Concurrent.step t1 t2) (Concurrent.start m) c)
    by apply run_steps.
  assert (Hd : Concurrent.finished c (@None error) (@None error))
    by (split; reflexivity).
  split; [repeat split; [exact Hne|exact Hr]|].
  exact (concurrent_creates_distinct_both_succeed m t1 t2 c None None
           Hne eq_refl eq_refl Hr Hd).
Defined.

(** * The records that [Preprocess] leaves alone *)

Lemma TrimSpace_fixed_iff (s : string) :
  TrimSpace s = s
  <-> startsWithSpace (list_ascii_of_string s) = false
      /\ endsWithSpace (list_ascii_of_string s) = false.
Proof.
  split.
  - intros H.
    pose proof (trimRight_trimLeft_start (list_ascii_of_string s)) as H1.
    pose proof (trimRight_end (trimLeft (list_ascii_of_string s))) as H2.
    rewrite <- (list_ascii_of_string_of_list_ascii
                  (trimRight (trimLeft (list_ascii_of_string s)))) in H1, H2.
    fold (TrimSpace s) in H1, H2. by rewrite H in H1, H2.
  - intros [H1 H2]. unfold TrimSpace, trimLeft.
    rewrite (strip_fixed _ _ _ H1). unfold trimRight.
    rewrite (strip_fixed _ _ _ H2), rev_involutive.
    apply string_of_list_ascii_of_string.
Qed.

(** [Preprocess] changes nothing exactly on the records whose title and
    description neither start nor end with a white-space rune. *)
Theorem Preprocess_fixed_iff (t : Task) :
  Preprocess t = t
  <-> (startsWithSpace (list_ascii_of_string (Title t)) = false
       /\ endsWithSpace (list_ascii_of_string (Title t)) = false)
      /\ (startsWithSpace (list_ascii_of_string (Description t)) = false
          /\ endsWithSpace (list_ascii_of_string (Description t)) = false).
Proof.
  rewrite <- !TrimSpace_fixed_iff, Preprocess_fields.
  destruct t as [i ti de st]. simpl. split.
  - by intros [= -> ->].
  - by intros [-> ->].
Qed.
